(** * min-s3-viewer: the path parser, the listing renderer and the request
    router of [server.js], embedded in Rocq.

    Strings are sequences of code units ([string]); every function of the
    source that only looks for the ASCII slash behaves the same on
    UTF-8 bytes and on UTF-16 code units.  What the S3 service answers to the
    commands of the server is an oracle ([Backend]); the Express response
    object, the console and the sequence of commands sent are an explicit
    state ([World]) threaded by a small state-and-exception monad. *)

From Stdlib Require Import ZArith NArith QArith Qround Ascii String List Lia.
From stdpp Require Import gmap strings pretty.
Import ListNotations.

Local Open Scope stdpp_scope.

(** ** The JavaScript string and array methods used by the source *)

Module Js.

(** The double-quote character of the HTML attributes. *)
Definition dq : string := String "034"%char EmptyString.

(** [Boolean(s)] for a string: the empty string is the only falsy one. *)
Definition nonEmpty (s : string) : bool :=
  match s with EmptyString => false | String _ _ => true end.

(** Truthiness of a value that is a string, [null] or [undefined]. *)
Definition truthy (v : option string) : bool :=
  match v with Some s => nonEmpty s | None => false end.

(** The string that a truthy value is. *)
Definition str (v : option string) : string :=
  match v with Some s => s | None => EmptyString end.

(** [a || b] on such values, when [b] is a string. *)
Definition orElse (a : option string) (b : string) : string :=
  match a with
  | Some s => if nonEmpty s then s else b
  | None => b
  end.

(** [a || b] when [b] may be falsy too. *)
Definition orElseOpt (a b : option string) : option string :=
  if truthy a then a else b.

(** [s.split(sep)] for a one-character separator: never the empty list,
    the empty string splits into one empty segment. *)
Fixpoint split (sep : ascii) (s : string) : list string :=
  match s with
  | EmptyString => [EmptyString]
  | String c s' =>
      if Ascii.eqb c sep then EmptyString :: split sep s'
      else match split sep s' with
           | seg :: rest => String c seg :: rest
           | [] => [String c EmptyString]
           end
  end.

(** [l.join(sep)]. *)
Fixpoint join (sep : string) (l : list string) : string :=
  match l with
  | [] => EmptyString
  | [x] => x
  | x :: rest => x +:+ sep +:+ join sep rest
  end.

(** [s.replace(/^\/+/, "")]: drop every leading slash. *)
Fixpoint stripLeadingSlashes (s : string) : string :=
  match s with
  | String c s' => if Ascii.eqb c "/" then stripLeadingSlashes s' else s
  | EmptyString => EmptyString
  end.

(** [s.startsWith(p)]. *)
Fixpoint startsWith (s p : string) : bool :=
  match p, s with
  | EmptyString, _ => true
  | String a p', String b s' => Ascii.eqb a b && startsWith s' p'
  | String _ _, EmptyString => false
  end.

(** [s.endsWith(suf)]: [suf] is [s] or a suffix of its tail. *)
Fixpoint endsWith (s suf : string) : bool :=
  if String.eqb s suf then true
  else match s with
       | EmptyString => false
       | String _ s' => endsWith s' suf
       end.

(** [s.includes(t)]. *)
Fixpoint includes (s t : string) : bool :=
  if startsWith s t then true
  else match s with
       | EmptyString => false
       | String _ s' => includes s' t
       end.

(** [s.replace(/\/$/, "")]: drop one trailing slash, if there is one. *)
Fixpoint stripTrailingSlash (s : string) : string :=
  match s with
  | EmptyString => EmptyString
  | String c s' =>
      match s' with
      | EmptyString => if Ascii.eqb c "/" then EmptyString else s
      | String _ _ => String c (stripTrailingSlash s')
      end
  end.

(** [s.slice(n)] for [0 <= n]: the string without its first [n] units. *)
Fixpoint slice (n : nat) (s : string) : string :=
  match n, s with
  | O, _ => s
  | S n', String _ s' => slice n' s'
  | S _, EmptyString => EmptyString
  end.

End Js.

(** ** The path parser *)

Record BucketAndKey := { bucket : option string; key : option string }.

(** [parseBucketAndKey], server.js lines 11-19. *)
Definition parseBucketAndKey (reqPath : string) : BucketAndKey :=
  let p := Js.stripLeadingSlashes reqPath in
  let parts := List.filter Js.nonEmpty (Js.split "/" p) in
  if (length parts <? 1)%nat then {| bucket := None; key := None |}
  else
    let bucket := parts !! 0%nat in
    let key := Js.join "/" (skipn 1 parts) in
    {| bucket := bucket; key := Some key |}.

(** The segments of a path: what is left of its split at the slashes when
    the empty pieces are discarded. *)
Definition segments (path : string) : list string :=
  List.filter Js.nonEmpty (Js.split "/" path).

(** The contract of section 4.1 of the specification, in its own words:
    strip the leading slashes and take the segments; if fewer than one
    remains there is no bucket, otherwise the bucket is the first segment
    and the key the remaining ones rejoined with a slash. *)
Definition spec_parseBucketAndKey (path : string) : BucketAndKey :=
  match segments (Js.stripLeadingSlashes path) with
  | [] => {| bucket := None; key := None |}
  | first :: remaining =>
      {| bucket := Some first; key := Some (Js.join "/" remaining) |}
  end.

(** ** The byte formatter *)

(** JavaScript Numbers are modelled exactly: a byte count is an integer, the
    quotient [bytes / k^i * 100] a rational.  On byte counts below [2^53]
    the division by a power of two is exact in binary64 as well. *)

(** [Math.floor(Math.log(bytes) / Math.log(k))] for [k] a power of two, as
    1024 is: the integer quotient of the two binary logarithms
    (see [floorLogRatio_spec]). *)
Definition floorLogRatio (bytes k : Z) : Z := Z.log2 bytes / Z.log2 k.

(** [Math.round]: the nearest integer, a tie going up. *)
Definition Math_round (x : Q) : Z := Qfloor (x + (1 # 2)).

(** The string of the Number [r / 100] for an integer [0 <= r]: the decimal
    expansion without trailing zeros. *)
Definition toStringDiv100 (r : Z) : string :=
  let whole := (r / 100)%Z in
  let frac := (r mod 100)%Z in
  pretty whole +:+
  (if (frac =? 0)%Z then EmptyString
   else if (frac mod 10 =? 0)%Z then "." +:+ pretty (frac / 10)%Z
   else if (frac <? 10)%Z then ".0" +:+ pretty frac
   else "." +:+ pretty frac).

Definition sizes : list string := ["B"; "KB"; "MB"; "GB"].

(** String concatenation with an array element that may be [undefined]. *)
Definition elementToString (e : option string) : string :=
  match e with Some s => s | None => "undefined" end.

(** [formatBytes], server.js lines 106-112.  The logarithm of a negative
    number is NaN, and every later step keeps it. *)
Definition formatBytes (bytes : Z) : string :=
  if (bytes =? 0)%Z then "0 B"
  else if (bytes <? 0)%Z then "NaN undefined"
  else
    let k := 1024%Z in
    let i := floorLogRatio bytes k in
    let r := Math_round (inject_Z bytes / inject_Z (k ^ i) * 100) in
    toStringDiv100 r +:+ " " +:+ elementToString (sizes !! Z.to_nat i).

(** ** The listing renderer *)

Record CommonPrefix := { Prefix : string }.
Record S3Object := { Key : string; Size : Z }.

Definition nl : string := String "010"%char EmptyString.

(** An [a] element with its [href]. *)
Definition anchor (path text : string) : string :=
  "<a href=" +:+ Js.dq +:+ path +:+ Js.dq +:+ ">" +:+ text +:+ "</a>".

(** The loop of lines 41-44: [currentPath] grows by one part per link. *)
Fixpoint breadcrumbLinks (currentPath : string) (pathParts : list string)
  : list string :=
  match pathParts with
  | [] => []
  | part :: rest =>
      let currentPath := currentPath +:+ "/" +:+ part in
      anchor currentPath part :: breadcrumbLinks currentPath rest
  end.

Definition row (path label size : string) : string :=
  "<tr><td>" +:+ anchor path label +:+ "</td><td>" +:+ size +:+ "</td></tr>".

(** Line 50. *)
Definition parentPath (bucket reqPath : string) : string :=
  Js.orElse
    (Some (Js.join "/"
             (removelast (Js.split "/" (Js.stripTrailingSlash reqPath)))))
    ("/" +:+ bucket).

Definition folderRow (bucket prefix : string) (folder : CommonPrefix) : string :=
  let folderName :=
    Js.stripTrailingSlash (Js.slice (String.length prefix) (Prefix folder)) in
  let folderPath := "/" +:+ bucket +:+ "/" +:+ Prefix folder in
  row folderPath ("📁 " +:+ folderName +:+ "/") "-".

(** One turn of the loop of lines 62-68: [None] is the [continue]. *)
Definition fileRow (bucket prefix : string) (file : S3Object) : option string :=
  let fileName := Js.slice (String.length prefix) (Key file) in
  if negb (Js.nonEmpty fileName) then None
  else
    let filePath := "/" +:+ bucket +:+ "/" +:+ Key file in
    let size := formatBytes (Size file) in
    Some (row filePath ("📄 " +:+ fileName) size).

Definition indexRows (bucket prefix : string) (folders : list CommonPrefix)
    (files : list S3Object) (reqPath : string) : list string :=
  (if Js.nonEmpty prefix
   then [row (parentPath bucket reqPath) "📁 .." "-"] else [])
  ++ map (folderRow bucket prefix) folders
  ++ omap (fileRow bucket prefix) files.

Definition meta : list string :=
  [ "  <meta charset=" +:+ Js.dq +:+ "UTF-8" +:+ Js.dq +:+ ">";
    "  <meta name=" +:+ Js.dq +:+ "viewport" +:+ Js.dq +:+ " content="
      +:+ Js.dq +:+ "width=device-width, initial-scale=1.0" +:+ Js.dq +:+ ">" ].

Definition tableStyle : list string :=
  [ "    table { border-collapse: collapse; width: 100%; max-width: 900px; }";
    "    th { text-align: left; padding: 0.5rem; border-bottom: 2px solid #ddd; background: #f5f5f5; }";
    "    td { padding: 0.5rem; border-bottom: 1px solid #eee; }";
    "    td:first-child { width: 70%; }";
    "    td:last-child { text-align: right; color: #666; }";
    "    a { color: #0066cc; text-decoration: none; }";
    "    a:hover { text-decoration: underline; }" ].

(** [generateIndexHtml], server.js lines 35-104. *)
Definition generateIndexHtml (bucket prefix : string)
    (folders : list CommonPrefix) (files : list S3Object) (reqPath : string)
  : string :=
  let pathParts :=
    if Js.nonEmpty prefix
    then List.filter Js.nonEmpty (Js.split "/" prefix) else [] in
  let currentPath := "/" +:+ bucket in
  let breadcrumbs :=
    anchor currentPath bucket :: breadcrumbLinks currentPath pathParts in
  let rows := indexRows bucket prefix folders files reqPath in
  Js.join nl
    ([ "<!DOCTYPE html>"; "<html>"; "<head>" ] ++ meta ++
     [ "  <title>Index of " +:+ reqPath +:+ "</title>";
       "  <style>";
       "    body { font-family: system-ui, -apple-system, sans-serif; margin: 2rem; }";
       "    h1 { font-size: 1.5rem; margin-bottom: 0.5rem; }";
       "    .breadcrumbs { color: #666; margin-bottom: 1.5rem; }";
       "    .breadcrumbs a { color: #0066cc; text-decoration: none; }";
       "    .breadcrumbs a:hover { text-decoration: underline; }" ]
     ++ tableStyle ++
     [ "  </style>"; "</head>"; "<body>";
       "  <h1>Index of " +:+ reqPath +:+ "</h1>";
       "  <div class=" +:+ Js.dq +:+ "breadcrumbs" +:+ Js.dq +:+ ">"
         +:+ Js.join " / " breadcrumbs +:+ "</div>";
       "  <table>"; "    <thead>";
       "      <tr><th>Name</th><th>Size</th></tr>";
       "    </thead>"; "    <tbody>";
       "      " +:+ Js.join (nl +:+ "      ") rows;
       "    </tbody>"; "  </table>"; "</body>"; "</html>" ]).

(** ** The buckets index of the root route *)

(** A bucket of the [ListBuckets] answer; the creation [Date] is kept as the
    string its [toISOString()] gives. *)
Record Bucket := { Name : string; CreationDate : option string }.

(** The callback of [buckets.map], lines 119-123. *)
Definition bucketRow (bucket : Bucket) : string :=
  let bucketPath := "/" +:+ Name bucket in
  let creationDate :=
    match CreationDate bucket with
    | Some iso => elementToString (Js.split "T" iso !! 0%nat)
    | None => "-"
    end in
  row bucketPath ("📦 " +:+ Name bucket) creationDate.

(** The template of lines 125-154. *)
Definition bucketsHtml (rows : string) : string :=
  Js.join nl
    ([ "<!DOCTYPE html>"; "<html>"; "<head>" ] ++ meta ++
     [ "  <title>S3 Buckets</title>";
       "  <style>";
       "    body { font-family: system-ui, -apple-system, sans-serif; margin: 2rem; }";
       "    h1 { font-size: 1.5rem; margin-bottom: 1.5rem; }" ]
     ++ tableStyle ++
     [ "  </style>"; "</head>"; "<body>";
       "  <h1>S3 Buckets</h1>";
       "  <table>"; "    <thead>";
       "      <tr><th>Name</th><th>Created</th></tr>";
       "    </thead>"; "    <tbody>";
       "      " +:+ rows;
       "    </tbody>"; "  </table>"; "</body>"; "</html>" ]).

(** ** The storage service, the response and the handler monad *)

(** What a handler can catch: [err?.$metadata?.httpStatusCode] and
    [err?.name], each possibly undefined. *)
Record Thrown := { httpStatusCode : option Z; name : option string }.

Inductive outcome (A : Type) : Type :=
  | Resolved (a : A)
  | Rejected (err : Thrown).
Arguments Resolved {A} a.
Arguments Rejected {A} err.

Record ListBucketsOutput := { Buckets : option (list Bucket) }.
Record ListObjectsV2Output :=
  { CommonPrefixes : option (list CommonPrefix);
    Contents : option (list S3Object) }.
Record HeadObjectOutput :=
  { ContentType : option string;
    CacheControl : option string;
    ETag : option string }.
Record GetObjectOutput := { Body : string }.

(** The answers of the service to the four commands the server sends. *)
Record Backend :=
  { listBuckets : outcome ListBucketsOutput;
    listObjectsV2 : string -> string -> outcome ListObjectsV2Output;
    headObject : string -> string -> outcome HeadObjectOutput;
    getObject : string -> string -> outcome GetObjectOutput }.

Inductive Command :=
  | ListBucketsCommand
  | ListObjectsV2Command (Bucket Prefix Delimiter : string)
  | HeadObjectCommand (Bucket Key : string)
  | GetObjectCommand (Bucket Key : string).

Inductive Payload :=
  | Sent (text : string)
  | Piped (stream : string).

(** The Express response: status (200 until [res.status] changes it), the
    headers set by [res.setHeader], and what was sent. *)
Record Response :=
  { statusCode : Z;
    headers : gmap string string;
    payload : option Payload }.

Record World :=
  { res : Response;
    console : list Thrown;
    commands : list Command }.

Definition freshResponse : Response :=
  {| statusCode := 200; headers := ∅; payload := None |}.

Definition freshWorld : World :=
  {| res := freshResponse; console := []; commands := [] |}.

Inductive completion (A : Type) : Type :=
  | Normal (a : A)
  | Throw (err : Thrown).
Arguments Normal {A} a.
Arguments Throw {A} err.

Definition M (A : Type) : Type := World -> completion A * World.

#[global] Instance M_ret : MRet M := fun A a w => (Normal a, w).

#[global] Instance M_bind : MBind M := fun A B f m w =>
  match m w with
  | (Normal a, w') => f a w'
  | (Throw err, w') => (Throw err, w')
  end.

Definition throw {A} (err : Thrown) : M A := fun w => (Throw err, w).

(** [try { m } catch (err) { handler }] *)
Definition tryCatch {A} (m : M A) (handler : Thrown -> M A) : M A :=
  fun w =>
    match m w with
    | (Normal a, w') => (Normal a, w')
    | (Throw err, w') => handler err w'
    end.

(** [if (c) m;] *)
Definition when (c : bool) (m : M unit) : M unit := if c then m else mret tt.

Definition updateRes (f : Response -> Response) : M unit :=
  fun w =>
    (Normal tt,
     {| res := f (res w); console := console w; commands := commands w |}).

Definition res_status (code : Z) : M unit :=
  updateRes (fun r =>
    {| statusCode := code; headers := headers r; payload := payload r |}).

Definition res_setHeader (field value : string) : M unit :=
  updateRes (fun r =>
    {| statusCode := statusCode r;
       headers := <[field := value]> (headers r);
       payload := payload r |}).

Definition res_send (text : string) : M unit :=
  updateRes (fun r =>
    {| statusCode := statusCode r; headers := headers r;
       payload := Some (Sent text) |}).

(** [stream.pipe(res)] *)
Definition pipe (stream : string) : M unit :=
  updateRes (fun r =>
    {| statusCode := statusCode r; headers := headers r;
       payload := Some (Piped stream) |}).

Definition console_error (err : Thrown) : M unit :=
  fun w =>
    (Normal tt,
     {| res := res w; console := console w ++ [err];
        commands := commands w |}).

(** [await s3.send(command)]: the command is recorded, the answer of the
    service is returned or thrown. *)
Definition send {A} (command : Command) (answer : outcome A) : M A :=
  fun w =>
    let w' := {| res := res w; console := console w;
                 commands := commands w ++ [command] |} in
    match answer with
    | Resolved a => (Normal a, w')
    | Rejected err => (Throw err, w')
    end.

(** The test of line 198. *)
Definition isNotFound (err : Thrown) : bool :=
  bool_decide (httpStatusCode err = Some 404%Z)
  || bool_decide (name err = Some "NotFound")
  || bool_decide (name err = Some "NoSuchKey").

(** What [listS3Objects] returns. *)
Record Listing :=
  { folders : list CommonPrefix;
    files : list S3Object }.

Definition htmlType : string := "text/html; charset=utf-8".

(** The catch block that ends both handlers, lines 158-161 and 214-217:
    the error goes to the console and the answer is a 500 with a fixed
    message. *)
Definition internalError (message : string) (err : Thrown) : M unit :=
  console_error err;;
  res_status 500;;
  res_send message.

Section Server.

(** [mime.lookup] of the mime-types package: a type, or [false]. *)
Variable mime_lookup : string -> option string.
Variable s3 : Backend.

(** [listS3Objects], lines 21-33. *)
Definition listS3Objects (bucket prefix : string) : M Listing :=
  result ← send (ListObjectsV2Command bucket prefix "/")
                 (listObjectsV2 s3 bucket prefix);
  mret {| folders := default [] (CommonPrefixes result);
          files := default [] (Contents result) |}.

(** The handler of [app.get("/")], lines 114-162. *)
Definition getRoot : M unit :=
  tryCatch
    (result ← send ListBucketsCommand (listBuckets s3);
     let buckets := default [] (Buckets result) in
     let rows := Js.join (nl +:+ "      ") (map bucketRow buckets) in
     let html := bucketsHtml rows in
     res_setHeader "Content-Type" htmlType;;
     res_send html)
    (internalError "Error listing buckets").

(** Lines 183-195: the object is fetched as a file. *)
Definition fetchAsFile (bucket key : string) : M unit :=
  head ← send (HeadObjectCommand bucket key) (headObject s3 bucket key);
  let contentType :=
    Js.orElse (Js.orElseOpt (ContentType head) (mime_lookup key))
              "application/octet-stream" in
  res_setHeader "Content-Type" contentType;;
  when (Js.truthy (CacheControl head))
    (res_setHeader "Cache-Control" (Js.str (CacheControl head)));;
  when (Js.truthy (ETag head))
    (res_setHeader "ETag" (Js.str (ETag head)));;
  obj ← send (GetObjectCommand bucket key) (getObject s3 bucket key);
  pipe (Body obj).

(** Lines 196-213: the catch block of the file attempt. *)
Definition fileNotFound (bucket key reqPath : string) (err : Thrown)
  : M unit :=
  if isNotFound err then
    let prefix := if Js.endsWith key "/" then key else key +:+ "/" in
    listing ← listS3Objects bucket prefix;
    let '{| folders := folders; files := files |} := listing in
    if (0 <? length folders)%nat || (0 <? length files)%nat then
      let html :=
        generateIndexHtml bucket prefix folders files
          (if Js.endsWith reqPath "/" then reqPath else reqPath +:+ "/") in
      res_setHeader "Content-Type" htmlType;;
      res_send html
    else
      res_status 404;;
      res_send "Not found"
  else throw err.

(** The handler of [app.get(/.*/)], lines 164-218. *)
Definition getAny (reqPath : string) : M unit :=
  tryCatch
    (let '{| bucket := bucket; key := key |} := parseBucketAndKey reqPath in
     if negb (Js.truthy bucket) then
       res_status 400;;
       res_send "Bad path. Use /<bucket>/<key...>"
     else
       let bucket := Js.str bucket in
       if negb (Js.truthy key) || Js.endsWith (Js.str key) "/"
       then
         let prefix := Js.orElse key EmptyString in
         listing ← listS3Objects bucket prefix;
         let '{| folders := folders; files := files |} := listing in
         let html := generateIndexHtml bucket prefix folders files reqPath in
         res_setHeader "Content-Type" htmlType;;
         res_send html
       else
         let key := Js.str key in
         tryCatch (fetchAsFile bucket key)
                  (fileNotFound bucket key reqPath))
    (internalError "Error fetching from S3").

(** Express tries the routes in the order of their registration.  The
    root route is taken to answer the path [/] alone and the regular
    expression every other path; which further paths made of slashes only
    the router also gives to the root route depends on the version of
    Express and is not modelled. *)
Definition serve (reqPath : string) : World :=
  snd ((if String.eqb reqPath "/" then getRoot else getAny reqPath)
         freshWorld).

End Server.

(** ** Notions used in the statements *)

(** What a segment of a path is: non-empty and free of slashes. *)
Definition isSegment (seg : string) : Prop :=
  Js.nonEmpty seg = true /\ Js.split "/" seg = [seg].


(** The request path with a trailing slash, line 204. *)
Definition withTrailingSlash (reqPath : string) : string :=
  if Js.endsWith reqPath "/" then reqPath else reqPath +:+ "/".

(** What [setHeader] under a truthiness test leaves in the headers. *)
Definition setIf (field : string) (value : option string)
    (hs : gmap string string) : gmap string string :=
  if Js.truthy value then <[field := Js.str value]> hs else hs.

Section FileHeaders.
Variable mime_lookup : string -> option string.

(** The content type of lines 185-188. *)
Definition contentTypeOf (head : HeadObjectOutput) (key : string) : string :=
  Js.orElse (Js.orElseOpt (ContentType head) (mime_lookup key))
            "application/octet-stream".

(** The headers of a file answer, lines 190-192. *)
Definition fileHeaders (head : HeadObjectOutput) (key : string)
  : gmap string string :=
  setIf "ETag" (ETag head)
    (setIf "Cache-Control" (CacheControl head)
       (<["Content-Type" := contentTypeOf head key]> ∅)).

End FileHeaders.

(** ** Sample stores *)

Definition notFound : Thrown :=
  {| httpStatusCode := Some 404%Z; name := Some "NotFound" |}.

Definition accessDenied : Thrown :=
  {| httpStatusCode := Some 403%Z; name := Some "AccessDenied" |}.

Definition noMime (key : string) : option string := None.

Definition byExtension (key : string) : option string :=
  if Js.endsWith key ".txt" then Some "text/plain" else None.

Definition emptyListing : ListObjectsV2Output :=
  {| CommonPrefixes := None; Contents := None |}.

Definition dirListing : ListObjectsV2Output :=
  {| CommonPrefixes := None;
     Contents := Some [ {| Key := "dir/x.txt"; Size := 2048 |} ] |}.

(** Bucket [b] holds the one object [dir/x.txt]. *)
Definition dirStore : Backend :=
  {| listBuckets :=
       Resolved {| Buckets := Some [ {| Name := "b"; CreationDate := None |} ] |};
     listObjectsV2 := fun _ prefix =>
       if String.eqb prefix "dir/" then Resolved dirListing
       else Resolved emptyListing;
     headObject := fun _ key =>
       if String.eqb key "dir/x.txt"
       then Resolved {| ContentType := None; CacheControl := None;
                        ETag := Some "etag-x" |}
       else Rejected notFound;
     getObject := fun _ key =>
       if String.eqb key "dir/x.txt" then Resolved {| Body := "hello" |}
       else Rejected notFound |}.

(** No bucket is accessible and nothing is stored. *)
Definition emptyStore : Backend :=
  {| listBuckets := Resolved {| Buckets := Some [] |};
     listObjectsV2 := fun _ _ => Resolved emptyListing;
     headObject := fun _ _ => Rejected notFound;
     getObject := fun _ _ => Rejected notFound |}.

(** Every command is refused. *)
Definition deniedStore : Backend :=
  {| listBuckets := Rejected accessDenied;
     listObjectsV2 := fun _ _ => Rejected accessDenied;
     headObject := fun _ _ => Rejected accessDenied;
     getObject := fun _ _ => Rejected accessDenied |}.

(** The metadata of every object can be read, its body cannot. *)
Definition headOnlyStore : Backend :=
  {| listBuckets := Rejected accessDenied;
     listObjectsV2 := fun _ _ => Rejected accessDenied;
     headObject := fun _ _ =>
       Resolved {| ContentType := Some "image/png";
                   CacheControl := Some "max-age=60"; ETag := None |};
     getObject := fun _ _ => Rejected accessDenied |}.

(** ** More notions and stores used in the statements *)

(** Whether a path holds nothing but slashes. *)
Fixpoint onlySlashes (s : string) : bool :=
  match s with
  | EmptyString => true
  | String c s' => Ascii.eqb c "/" && onlySlashes s'
  end.

(** What a request leaves behind apart from the text of its answer. *)
Definition outline (w : World) : Z * gmap string string * list Thrown * list Command :=
  (statusCode (res w), headers (res w), console w, commands w).

(** What the handler of the regular-expression route may send for a
    request path: a read of the parsed bucket, at the parsed key or under
    it, and never the listing of the buckets. *)
Definition commandFor (reqPath : string) (c : Command) : Prop :=
  match c with
  | ListBucketsCommand => False
  | ListObjectsV2Command b prefix delimiter =>
      delimiter = "/"
      /\ bucket (parseBucketAndKey reqPath) = Some b
      /\ (key (parseBucketAndKey reqPath) = Some prefix /\ prefix = EmptyString
          \/ exists k, key (parseBucketAndKey reqPath) = Some k
                       /\ k <> EmptyString /\ prefix = k +:+ "/")
  | HeadObjectCommand b k | GetObjectCommand b k =>
      parseBucketAndKey reqPath = {| bucket := Some b; key := Some k |}
      /\ k <> EmptyString
  end.

(** [t] occurs in [s]. *)
Definition occursIn (t s : string) : Prop :=
  exists before after, s = before +:+ t +:+ after.

(** The row that the listing shows for a file that is not skipped. *)
Definition shownFileRow (bucket prefix : string) (file : S3Object) : string :=
  row ("/" +:+ bucket +:+ "/" +:+ Key file)
      ("📄 " +:+ Js.slice (String.length prefix) (Key file))
      (formatBytes (Size file)).

(** ** The formatter and the file row for the computed index *)



Definition noSuchKey : Thrown :=
  {| httpStatusCode := Some 404%Z; name := Some "NoSuchKey" |}.

Definition noSuchBucket : Thrown :=
  {| httpStatusCode := Some 404%Z; name := Some "NoSuchBucket" |}.

(** The bucket of the request does not exist. *)
Definition missingBucketStore : Backend :=
  {| listBuckets := Resolved {| Buckets := Some [] |};
     listObjectsV2 := fun _ _ => Rejected noSuchBucket;
     headObject := fun _ _ => Rejected notFound;
     getObject := fun _ _ => Rejected noSuchKey |}.

Definition pngHead : HeadObjectOutput :=
  {| ContentType := Some "image/png"; CacheControl := None;
     ETag := Some "etag-1" |}.

(** Every object is gone between its metadata check and its fetch. *)
Definition vanishingStore : Backend :=
  {| listBuckets := Resolved {| Buckets := Some [] |};
     listObjectsV2 := fun _ _ => Resolved emptyListing;
     headObject := fun _ _ => Resolved pngHead;
     getObject := fun _ _ => Rejected noSuchKey |}.

(** * Facts *)

#[local] Arguments String.append !_ _ / : simpl nomatch.

(** ** The definitions on concrete inputs *)

Example parse_documented :
  parseBucketAndKey "/my-bucket/a/b/c.png"
  = {| bucket := Some "my-bucket"; key := Some "a/b/c.png" |}.
Proof. reflexivity. Qed.

Example parse_bucket_only :
  parseBucketAndKey "/my-bucket"
  = {| bucket := Some "my-bucket"; key := Some EmptyString |}.
Proof. reflexivity. Qed.

Example parse_slashes_only :
  parseBucketAndKey "///" = {| bucket := None; key := None |}.
Proof. reflexivity. Qed.

Example parse_bad_path :
  parseBucketAndKey "/bad//path"
  = {| bucket := Some "bad"; key := Some "path" |}.
Proof. reflexivity. Qed.

Example formatBytes_one : formatBytes 1 = "1 B".
Proof. vm_compute. reflexivity. Qed.

Example formatBytes_hundredths : formatBytes 1075 = "1.05 KB".
Proof. vm_compute. reflexivity. Qed.

Example formatBytes_rounds_up : formatBytes 1048575 = "1024 KB".
Proof. vm_compute. reflexivity. Qed.

Example formatBytes_megabytes : formatBytes 123456789 = "117.74 MB".
Proof. vm_compute. reflexivity. Qed.

Example formatBytes_tebibyte : formatBytes (1024 ^ 4) = "1 undefined".
Proof. vm_compute. reflexivity. Qed.

Example parentPath_nested : parentPath "b" "/b/dir/sub/" = "/b/dir".
Proof. reflexivity. Qed.

Example parentPath_top : parentPath "b" "/b/" = "/b".
Proof. reflexivity. Qed.

Example bucketRow_dated :
  bucketRow {| Name := "logs";
               CreationDate := Some "2024-01-02T03:04:05.000Z" |}
  = row "/logs" "📦 logs" "2024-01-02".
Proof. reflexivity. Qed.

(** The prefix marker [dir/] itself gets no row. *)
Example indexRows_skip_marker :
  indexRows "b" "dir/" [ {| Prefix := "dir/sub/" |} ]
    [ {| Key := "dir/"; Size := 0 |}; {| Key := "dir/x.txt"; Size := 2048 |} ]
    "/b/dir/"
  = [ row "/b" "📁 .." "-";
      row "/b/dir/sub/" "📁 sub/" "-";
      row "/b/dir/x.txt" "📄 x.txt" "2 KB" ].
Proof. vm_compute. reflexivity. Qed.

Example missing_key_is_404 :
  res (serve noMime emptyStore "/b/missing-key")
  = {| statusCode := 404; headers := ∅; payload := Some (Sent "Not found") |}.
Proof. reflexivity. Qed.

Example no_bucket_is_400 :
  res (serve noMime emptyStore "//")
  = {| statusCode := 400; headers := ∅;
       payload := Some (Sent "Bad path. Use /<bucket>/<key...>") |}.
Proof. reflexivity. Qed.

(** ** The string methods *)

Module JsFacts.
Import Js.

Lemma append_assoc (a b c : string) : (a +:+ b) +:+ c = a +:+ b +:+ c.
Proof. induction a as [|x a IH]; simpl; [reflexivity | now rewrite IH]. Qed.

Lemma append_nil_r (a : string) : a +:+ EmptyString = a.
Proof. induction a as [|x a IH]; simpl; [reflexivity | now rewrite IH]. Qed.


Lemma split_not_nil sep s : split sep s <> [].
Proof.
  destruct s as [|c s]; simpl; [discriminate |].
  destruct (Ascii.eqb c sep); [discriminate |].
  destruct (split sep s); discriminate.
Qed.

(** Splitting distributes over a separator in the middle. *)
Lemma split_app_sep sep a b :
  split sep (a +:+ String sep b) = split sep a ++ split sep b.
Proof.
  induction a as [|c a IH]; simpl.
  - now rewrite Ascii.eqb_refl.
  - destruct (Ascii.eqb c sep); rewrite IH; [reflexivity |].
    pose proof (split_not_nil sep a) as Hne.
    destruct (split sep a) as [|seg rest]; [contradiction | reflexivity].
Qed.

(** A segment of a split holds no separator: it splits into itself. *)
Lemma split_segment sep s :
  Forall (fun seg => split sep seg = [seg]) (split sep s).
Proof.
  induction s as [|c s IH]; simpl.
  - constructor; [reflexivity | constructor].
  - destruct (Ascii.eqb c sep) eqn:Hc.
    + constructor; [reflexivity | exact IH].
    + pose proof (split_not_nil sep s) as Hne.
      destruct (split sep s) as [|seg rest]; [contradiction |].
      inversion IH as [|? ? Hseg Hrest]; subst.
      constructor; [| exact Hrest].
      simpl. now rewrite Hc, Hseg.
Qed.

(** Joining slash-free segments and splitting again gives them back. *)
Lemma split_join (l : list string) :
  l <> [] ->
  Forall (fun seg => split "/" seg = [seg]) l ->
  split "/" (join "/" l) = l.
Proof.
  induction l as [|x l IH]; intros Hne Hall; [contradiction |].
  inversion Hall as [|? ? Hx Hl]; subst.
  destruct l as [|y l]; [exact Hx |].
  change (join "/" (x :: y :: l)) with (x +:+ String "/" (join "/" (y :: l))).
  rewrite split_app_sep, Hx, IH; [reflexivity | discriminate | exact Hl].
Qed.

Lemma stripLeadingSlashes_filter s :
  List.filter nonEmpty (split "/" (stripLeadingSlashes s))
  = List.filter nonEmpty (split "/" s).
Proof.
  induction s as [|c s IH]; [reflexivity |].
  simpl stripLeadingSlashes.
  destruct (Ascii.eqb c "/") eqn:Hc; [| reflexivity].
  rewrite IH. simpl. now rewrite Hc.
Qed.

Lemma startsWith_inv s p :
  startsWith s p = true -> exists rest, s = p +:+ rest.
Proof.
  revert s; induction p as [|a p IH]; intros s H; simpl in *.
  - now exists s.
  - destruct s as [|b s]; [discriminate |].
    apply andb_prop in H as [Hab Hp].
    apply Ascii.eqb_eq in Hab as ->.
    destruct (IH _ Hp) as [rest ->]. now exists rest.
Qed.

Lemma includes_unfold s t :
  includes s t
  = if startsWith s t then true
    else match s with
         | EmptyString => false
         | String _ s' => includes s' t
         end.
Proof. destruct s; reflexivity. Qed.

Lemma includes_inv s t :
  includes s t = true -> exists a b, s = a +:+ t +:+ b.
Proof.
  induction s as [|c s IH]; rewrite includes_unfold;
    destruct (startsWith _ t) eqn:Hs; intros H.
  - destruct (startsWith_inv _ _ Hs) as [rest Hrest].
    now exists EmptyString, rest.
  - discriminate.
  - destruct (startsWith_inv _ _ Hs) as [rest Hrest].
    now exists EmptyString, rest.
  - destruct (IH H) as (a & b & ->). now exists (String c a), b.
Qed.

Lemma endsWith_cons c s suf :
  endsWith (String c s) suf
  = if String.eqb (String c s) suf then true else endsWith s suf.
Proof. reflexivity. Qed.

Lemma endsWith_inv s suf :
  endsWith s suf = true -> exists front, s = front +:+ suf.
Proof.
  induction s as [|c s IH].
  - destruct suf; [now exists EmptyString | discriminate].
  - rewrite endsWith_cons.
    destruct (String.eqb (String c s) suf) eqn:He; intros H.
    + apply String.eqb_eq in He as <-. now exists EmptyString.
    + destruct (IH H) as [front ->]. now exists (String c front).
Qed.

Lemma endsWith_refl s : endsWith s s = true.
Proof.
  destruct s; [reflexivity |].
  rewrite endsWith_cons. now rewrite String.eqb_refl.
Qed.

Lemma endsWith_app front suf : endsWith (front +:+ suf) suf = true.
Proof.
  induction front as [|c front IH]; [apply endsWith_refl |].
  change (String c front +:+ suf) with (String c (front +:+ suf)).
  rewrite endsWith_cons, IH. now destruct (String.eqb _ _).
Qed.


(** A string that begins or ends with a slash, or holds two in a row, has
    an empty segment. *)
Lemma startsWith_slash_empty_segment k :
  startsWith k "/" = true -> In EmptyString (split "/" k).
Proof.
  intros H. destruct (startsWith_inv _ _ H) as [rest ->].
  simpl. now left.
Qed.

Lemma endsWith_slash_empty_segment k :
  endsWith k "/" = true -> In EmptyString (split "/" k).
Proof.
  intros H. destruct (endsWith_inv _ _ H) as [front ->].
  rewrite split_app_sep. apply in_or_app. right. simpl. now left.
Qed.

Lemma includes_slashes_empty_segment k :
  includes k "//" = true -> In EmptyString (split "/" k).
Proof.
  intros H. destruct (includes_inv _ _ H) as (a & b & ->).
  change ("//" +:+ b) with (String "/" (String "/" b)).
  rewrite split_app_sep. apply in_or_app. right. simpl. now left.
Qed.

End JsFacts.

(** ** The path parser *)

Module ParserFacts.
Import Js JsFacts.

Lemma segments_are_segments p : Forall isSegment (segments p).
Proof.
  unfold segments.
  pose proof (split_segment "/" p) as Hall.
  induction Hall as [|seg l Hseg Hl IH]; simpl; [constructor |].
  destruct (nonEmpty seg) eqn:Hne; [| exact IH].
  constructor; [split; assumption | exact IH].
Qed.

Lemma segments_app_sep a b :
  segments (a +:+ String "/" b) = segments a ++ segments b.
Proof. unfold segments. now rewrite split_app_sep, List.filter_app. Qed.

Lemma segments_leading_slash p : segments (String "/" p) = segments p.
Proof. reflexivity. Qed.

Lemma segments_trailing_slash p : segments (p +:+ "/") = segments p.
Proof.
  change (p +:+ "/") with (p +:+ String "/" EmptyString).
  rewrite segments_app_sep. apply app_nil_r.
Qed.

Lemma segments_strip p : segments (stripLeadingSlashes p) = segments p.
Proof. apply stripLeadingSlashes_filter. Qed.

Lemma filter_segments l :
  Forall isSegment l -> List.filter nonEmpty l = l.
Proof.
  induction 1 as [|seg l [Hne _] _ IH]; simpl; [reflexivity |].
  now rewrite Hne, IH.
Qed.

(** The segments of a join of segments are these segments. *)
Lemma segments_join l : Forall isSegment l -> segments (join "/" l) = l.
Proof.
  intros Hall. destruct l as [|x l]; [reflexivity |].
  unfold segments. rewrite split_join.
  - now apply filter_segments.
  - discriminate.
  - eapply List.Forall_impl; [| exact Hall]. now intros seg [_ H].
Qed.

Lemma segments_one seg : isSegment seg -> segments seg = [seg].
Proof.
  intros Hseg. apply (segments_join [seg]). now constructor.
Qed.

(** The parser only sees the segments of the path. *)
Lemma parse_by_segments p :
  parseBucketAndKey p
  = match segments p with
    | [] => {| bucket := None; key := None |}
    | first :: remaining =>
        {| bucket := Some first; key := Some (join "/" remaining) |}
    end.
Proof.
  unfold parseBucketAndKey.
  fold (segments (stripLeadingSlashes p)). rewrite segments_strip.
  destruct (segments p) as [|first remaining]; reflexivity.
Qed.

Lemma parse_same_segments p q :
  segments p = segments q -> parseBucketAndKey p = parseBucketAndKey q.
Proof. intros H. now rewrite !parse_by_segments, H. Qed.

(** A successful parse: the bucket is a segment, the key a join of
    segments. *)
Lemma parse_some_inv p b k :
  parseBucketAndKey p = {| bucket := Some b; key := Some k |} ->
  exists remaining,
    segments p = b :: remaining /\ k = join "/" remaining
    /\ isSegment b /\ Forall isSegment remaining.
Proof.
  rewrite parse_by_segments. intros H.
  pose proof (segments_are_segments p) as Hall.
  destruct (segments p) as [|first remaining]; [discriminate |].
  injection H as -> <-.
  inversion Hall; subst. now exists remaining.
Qed.

Lemma join_segments_no_empty_segment l :
  Forall isSegment l -> l <> [] -> ~ In EmptyString (split "/" (join "/" l)).
Proof.
  intros Hall Hne Hin. rewrite split_join in Hin.
  - rewrite List.Forall_forall in Hall.
    apply Hall in Hin. destruct Hin as [Hin _]. discriminate.
  - exact Hne.
  - eapply List.Forall_impl; [| exact Hall]. now intros seg [_ H].
Qed.

(** A join of segments has no slash at either end and no two in a row. *)
Lemma join_segments_shape l :
  Forall isSegment l ->
  startsWith (join "/" l) "/" = false
  /\ endsWith (join "/" l) "/" = false
  /\ includes (join "/" l) "//" = false.
Proof.
  intros Hall. destruct l as [|x l]; [now repeat split |].
  assert (Hno : ~ In EmptyString (split "/" (join "/" (x :: l))))
    by (apply join_segments_no_empty_segment; [exact Hall | discriminate]).
  repeat split.
  - destruct (startsWith _ "/") eqn:H; [| reflexivity].
    now apply startsWith_slash_empty_segment in H.
  - destruct (endsWith _ "/") eqn:H; [| reflexivity].
    now apply endsWith_slash_empty_segment in H.
  - destruct (includes _ "//") eqn:H; [| reflexivity].
    now apply includes_slashes_empty_segment in H.
Qed.

End ParserFacts.

(** C3.  On every raw path [parseBucketAndKey] computes the contract of
    section 4.1: the leading slashes are stripped, the path is split at
    the slashes and the empty segments are discarded; with no segment left
    the bucket and the key are both null, otherwise the bucket is the first
    segment and the key the other segments rejoined with a slash (the empty
    string when there is none).  The function is total: every path gets one
    of these two answers. *)
Theorem parseBucketAndKey_contract (reqPath : string) :
  parseBucketAndKey reqPath = spec_parseBucketAndKey reqPath
  /\ (parseBucketAndKey reqPath = {| bucket := None; key := None |}
      \/ exists b k,
           parseBucketAndKey reqPath = {| bucket := Some b; key := Some k |}).
Proof.
  unfold spec_parseBucketAndKey.
  rewrite ParserFacts.segments_strip, ParserFacts.parse_by_segments.
  destruct (segments reqPath) as [|first remaining].
  - split; [reflexivity | now left].
  - split; [reflexivity | right; eauto].
Qed.

(** C7.  Slashes that delimit nothing do not change the parse: a slash
    added in front of a path, a slash added at its end, and a slash doubled
    inside it all leave the bucket and the key as they were; and the
    normalized form [/bucket/key] of a successful parse parses to the same
    bucket and key. *)
Theorem parse_slash_normalization (p a b : string) :
  parseBucketAndKey ("/" +:+ p) = parseBucketAndKey p
  /\ parseBucketAndKey (p +:+ "/") = parseBucketAndKey p
  /\ parseBucketAndKey (a +:+ "//" +:+ b) = parseBucketAndKey (a +:+ "/" +:+ b)
  /\ forall bk k,
       parseBucketAndKey p = {| bucket := Some bk; key := Some k |} ->
       parseBucketAndKey ("/" +:+ bk +:+ "/" +:+ k)
       = {| bucket := Some bk; key := Some k |}.
Proof.
  split; [| split; [| split]].
  - apply ParserFacts.parse_same_segments. reflexivity.
  - apply ParserFacts.parse_same_segments.
    apply ParserFacts.segments_trailing_slash.
  - apply ParserFacts.parse_same_segments.
    change (a +:+ "//" +:+ b) with (a +:+ String "/" (String "/" b)).
    change (a +:+ "/" +:+ b) with (a +:+ String "/" b).
    now rewrite !ParserFacts.segments_app_sep.
  - intros bk k H.
    destruct (ParserFacts.parse_some_inv _ _ _ H)
      as (remaining & _ & -> & Hbk & Hrem).
    rewrite ParserFacts.parse_by_segments.
    change ("/" +:+ bk +:+ "/" +:+ Js.join "/" remaining)
      with (String "/" (bk +:+ String "/" (Js.join "/" remaining))).
    rewrite ParserFacts.segments_leading_slash, ParserFacts.segments_app_sep.
    rewrite (ParserFacts.segments_one _ Hbk).
    now rewrite (ParserFacts.segments_join _ Hrem).
Qed.

Lemma parse_slash_normalization_witness :
  parseBucketAndKey "//b///dir//x/"
  = {| bucket := Some "b"; key := Some "dir/x" |}
  /\ parseBucketAndKey "/b/dir/x"
     = {| bucket := Some "b"; key := Some "dir/x" |}.
Proof.
  split; [reflexivity |].
  destruct (parse_slash_normalization "//b///dir//x/" EmptyString EmptyString)
    as (_ & _ & _ & H).
  apply (H "b" "dir/x"). reflexivity.
Defined.

(** ** The byte formatter *)

Module FormatFacts.
Import Js JsFacts.
Local Open Scope Z_scope.

(** [floorLogRatio bytes 1024] is the floor of the logarithm of [bytes] in
    base 1024. *)
Lemma floorLogRatio_spec bytes :
  0 < bytes ->
  0 <= floorLogRatio bytes 1024
  /\ 1024 ^ floorLogRatio bytes 1024 <= bytes
     < 1024 ^ (floorLogRatio bytes 1024 + 1).
Proof.
  intros Hpos. unfold floorLogRatio.
  change (Z.log2 1024) with 10.
  pose proof (Z.log2_spec bytes Hpos) as [Hlo Hhi].
  pose proof (Z.log2_nonneg bytes) as Hnn.
  set (l := Z.log2 bytes) in *.
  assert (Hi : 0 <= l / 10) by (apply Z.div_pos; lia).
  pose proof (Z.mul_div_le l 10 ltac:(lia)) as Hle.
  pose proof (Z.mul_succ_div_gt l 10 ltac:(lia)) as Hgt.
  change 1024 with (2 ^ 10).
  rewrite <- !Z.pow_mul_r by lia.
  split; [exact Hi |]. split.
  - eapply Z.le_trans; [| exact Hlo]. apply Z.pow_le_mono_r; lia.
  - eapply Z.lt_le_trans; [exact Hhi |]. apply Z.pow_le_mono_r; lia.
Qed.

(** Rounding a ratio of integers times 100, in integer arithmetic. *)
Lemma Math_round_ratio (b : Z) (p : positive) :
  Math_round (inject_Z b / inject_Z (Zpos p) * 100)
  = (200 * b + Zpos p) / (2 * Zpos p).
Proof.
  unfold Math_round.
  assert (H : (inject_Z b / inject_Z (Zpos p) * 100 + (1 # 2)
               == (200 * b + Zpos p) # (2 * p))%Q).
  { unfold Qeq, Qdiv, Qmult, Qinv, Qplus, inject_Z. simpl. lia. }
  rewrite H. reflexivity.
Qed.

(** The rounded value is within half a hundredth of the ratio. *)
Lemma round_ratio_near b d :
  0 < d ->
  2 * Z.abs (100 * b - (200 * b + d) / (2 * d) * d) <= d.
Proof.
  intros Hd.
  pose proof (Z.mul_div_le (200 * b + d) (2 * d) ltac:(lia)) as Hle.
  pose proof (Z.mul_succ_div_gt (200 * b + d) (2 * d) ltac:(lia)) as Hgt.
  set (q := (200 * b + d) / (2 * d)) in *.
  lia.
Qed.

(** [formatBytes] on a positive byte count, with the rounding in
    integers. *)
Lemma formatBytes_pos bytes :
  0 < bytes ->
  formatBytes bytes
  = let i := floorLogRatio bytes 1024 in
    toStringDiv100 ((200 * bytes + 1024 ^ i) / (2 * 1024 ^ i))
    +:+ " " +:+ elementToString (sizes !! Z.to_nat i).
Proof.
  intros Hpos. unfold formatBytes.
  destruct (Z.eqb_spec bytes 0) as [-> | _]; [lia |].
  destruct (Z.ltb_spec bytes 0) as [Hneg | _]; [lia |].
  cbv zeta.
  destruct (floorLogRatio_spec bytes Hpos) as (Hi & _ & _).
  pose proof (Z.pow_pos_nonneg 1024 _ ltac:(lia) Hi) as Hd.
  destruct (1024 ^ floorLogRatio bytes 1024) as [|p|p] eqn:Hp; try lia.
  now rewrite Math_round_ratio.
Qed.

Lemma unit_in_range bytes :
  0 < bytes < 1024 ^ 4 ->
  exists u, sizes !! Z.to_nat (floorLogRatio bytes 1024) = Some u
            /\ In u sizes.
Proof.
  intros [Hpos Hlt].
  destruct (floorLogRatio_spec bytes Hpos) as (Hi & Hlo & _).
  set (i := floorLogRatio bytes 1024) in *.
  assert (i < 4).
  { destruct (Z.lt_ge_cases i 4) as [|Hge]; [assumption |].
    pose proof (Z.pow_le_mono_r 1024 4 i ltac:(lia) Hge). lia. }
  assert (Hcases : i = 0 \/ i = 1 \/ i = 2 \/ i = 3) by lia.
  destruct Hcases as [-> | [-> | [-> | ->]]]; simpl; eexists;
    (split; [reflexivity | simpl; tauto]).
Qed.

Lemma unit_out_of_range bytes :
  1024 ^ 4 <= bytes ->
  4 <= floorLogRatio bytes 1024
  /\ sizes !! Z.to_nat (floorLogRatio bytes 1024) = None.
Proof.
  intros Hge.
  assert (Hpos : 0 < bytes) by (change (1024 ^ 4) with 1099511627776 in Hge; lia).
  destruct (floorLogRatio_spec bytes Hpos) as (Hi & _ & Hhi).
  set (i := floorLogRatio bytes 1024) in *.
  assert (Hi4 : 4 <= i).
  { destruct (Z.lt_ge_cases i 4) as [Hlt |]; [| assumption].
    pose proof (Z.pow_le_mono_r 1024 (i + 1) 4 ltac:(lia) ltac:(lia)). lia. }
  split; [exact Hi4 |].
  apply lookup_ge_None. simpl. lia.
Qed.



End FormatFacts.

(** C8.  [formatBytes 0] is [0 B], [formatBytes 1024] is [1 KB] and
    [formatBytes 1536] is [1.5 KB].  Zero is a case of its own; every other
    byte count below 1024^4 is shown in the unit [sizes !! i] where [i] is
    the base-1024 magnitude of the count ([1024^i <= bytes < 1024^(i+1)]),
    as the number of hundredths [r] nearest to [bytes / 1024^i], printed
    with at most two decimals. *)
Theorem formatBytes_examples_and_rounding :
  formatBytes 0 = "0 B"
  /\ formatBytes 1024 = "1 KB"
  /\ formatBytes 1536 = "1.5 KB"
  /\ sizes = ["B"; "KB"; "MB"; "GB"]
  /\ forall bytes : Z,
       (0 < bytes < 1024 ^ 4)%Z ->
       exists (i : nat) (u : string) (r : Z),
         sizes !! i = Some u
         /\ (1024 ^ Z.of_nat i <= bytes < 1024 ^ (Z.of_nat i + 1))%Z
         /\ (2 * Z.abs (100 * bytes - r * 1024 ^ Z.of_nat i)
             <= 1024 ^ Z.of_nat i)%Z
         /\ formatBytes bytes = toStringDiv100 r +:+ " " +:+ u.
Proof.
  split; [reflexivity |].
  split; [vm_compute; reflexivity |].
  split; [vm_compute; reflexivity |].
  split; [reflexivity |].
  intros bytes [Hpos Hlt].
  destruct (FormatFacts.floorLogRatio_spec bytes Hpos) as (Hi & Hlo & Hhi).
  destruct (FormatFacts.unit_in_range bytes (conj Hpos Hlt)) as (u & Hu & _).
  pose proof (FormatFacts.formatBytes_pos bytes Hpos) as Hfmt.
  cbv zeta in Hfmt. rewrite Hu in Hfmt.
  set (i := floorLogRatio bytes 1024) in *.
  exists (Z.to_nat i), u, ((200 * bytes + 1024 ^ i) / (2 * 1024 ^ i))%Z.
  rewrite Z2Nat.id by exact Hi.
  split; [exact Hu |]. split; [lia |]. split; [| exact Hfmt].
  apply FormatFacts.round_ratio_near.
  apply Z.pow_pos_nonneg; lia.
Qed.

Lemma formatBytes_examples_and_rounding_witness :
  exists (i : nat) (u : string) (r : Z),
    sizes !! i = Some u
    /\ (1024 ^ Z.of_nat i <= 123456789 < 1024 ^ (Z.of_nat i + 1))%Z
    /\ (2 * Z.abs (100 * 123456789 - r * 1024 ^ Z.of_nat i)
        <= 1024 ^ Z.of_nat i)%Z
    /\ formatBytes 123456789 = toStringDiv100 r +:+ " " +:+ u.
Proof.
  destruct formatBytes_examples_and_rounding as (_ & _ & _ & _ & H).
  apply (H 123456789%Z). split; [lia | reflexivity].
Defined.

(** ** The handlers *)

Section ServerFacts.
Variable mime_lookup : string -> option string.
Variable s3 : Backend.

Lemma parse_not_root path b k :
  parseBucketAndKey path = {| bucket := Some b; key := Some k |} ->
  String.eqb path "/" = false.
Proof.
  intros H.
  destruct (String.eqb_spec path "/") as [-> | _];
    [discriminate | reflexivity].
Qed.

Lemma parse_bucket_truthy path b k :
  parseBucketAndKey path = {| bucket := Some b; key := Some k |} ->
  Js.nonEmpty b = true.
Proof.
  intros H.
  now destruct (ParserFacts.parse_some_inv _ _ _ H) as (? & _ & _ & [Hb _] & _).
Qed.

(** A parsed key never ends with a slash. *)
Lemma parse_key_no_trailing_slash path b k :
  parseBucketAndKey path = {| bucket := Some b; key := Some k |} ->
  Js.endsWith k "/" = false.
Proof.
  intros H.
  destruct (ParserFacts.parse_some_inv _ _ _ H) as (l & _ & -> & _ & Hl).
  now destruct (ParserFacts.join_segments_shape l Hl) as (_ & He & _).
Qed.

(** The directory branch of [getAny], lines 173-180. *)
Lemma serve_directory path b k :
  parseBucketAndKey path = {| bucket := Some b; key := Some k |} ->
  negb (Js.nonEmpty k) || Js.endsWith k "/" = true ->
  serve mime_lookup s3 path
  = snd (tryCatch
           (listing ← listS3Objects s3 b k;
            res_setHeader "Content-Type" htmlType;;
            res_send (generateIndexHtml b k (folders listing)
                        (files listing) path))
           (internalError "Error fetching from S3") freshWorld).
Proof.
  intros Hparse Hdir.
  unfold serve. rewrite (parse_not_root _ _ _ Hparse).
  unfold getAny. rewrite Hparse.
  cbn [Js.truthy Js.str]. rewrite (parse_bucket_truthy _ _ _ Hparse), Hdir.
  cbn [negb].
  assert (Hp : Js.orElse (Some k) EmptyString = k)
    by (unfold Js.orElse; destruct k; reflexivity).
  rewrite Hp. unfold tryCatch, mbind, M_bind.
  destruct (listS3Objects s3 b k freshWorld) as [[[fs fl] | err] w];
    reflexivity.
Qed.

(** The object branch of [getAny], lines 182-213. *)
Lemma serve_object path b k :
  parseBucketAndKey path = {| bucket := Some b; key := Some k |} ->
  k <> EmptyString ->
  serve mime_lookup s3 path
  = snd (tryCatch
           (tryCatch (fetchAsFile mime_lookup s3 b k)
                     (fileNotFound s3 b k path))
           (internalError "Error fetching from S3") freshWorld).
Proof.
  intros Hparse Hk.
  unfold serve. rewrite (parse_not_root _ _ _ Hparse).
  unfold getAny. rewrite Hparse.
  cbn [Js.truthy Js.str].
  rewrite (parse_bucket_truthy _ _ _ Hparse),
          (parse_key_no_trailing_slash _ _ _ Hparse).
  destruct k; [contradiction | reflexivity].
Qed.

Lemma fetchAsFile_head_rejected b k err :
  headObject s3 b k = Rejected err ->
  fetchAsFile mime_lookup s3 b k freshWorld
  = (Throw err,
     {| res := freshResponse; console := [];
        commands := [HeadObjectCommand b k] |}).
Proof.
  intros Hhead. unfold fetchAsFile, mbind, M_bind, send.
  now rewrite Hhead.
Qed.

Lemma fetchAsFile_get_rejected b k head err :
  headObject s3 b k = Resolved head ->
  getObject s3 b k = Rejected err ->
  fetchAsFile mime_lookup s3 b k freshWorld
  = (Throw err,
     {| res := {| statusCode := 200; headers := fileHeaders mime_lookup head k;
                  payload := None |};
        console := [];
        commands := [HeadObjectCommand b k; GetObjectCommand b k] |}).
Proof.
  intros Hhead Hget.
  unfold fetchAsFile, mbind, M_bind, send, fileHeaders, setIf, when.
  rewrite Hhead, Hget.
  destruct (Js.truthy (CacheControl head)), (Js.truthy (ETag head));
    reflexivity.
Qed.

Lemma fetchAsFile_resolved b k head obj :
  headObject s3 b k = Resolved head ->
  getObject s3 b k = Resolved obj ->
  fetchAsFile mime_lookup s3 b k freshWorld
  = (Normal tt,
     {| res := {| statusCode := 200; headers := fileHeaders mime_lookup head k;
                  payload := Some (Piped (Body obj)) |};
        console := [];
        commands := [HeadObjectCommand b k; GetObjectCommand b k] |}).
Proof.
  intros Hhead Hget.
  unfold fetchAsFile, mbind, M_bind, send, fileHeaders, setIf, when.
  rewrite Hhead, Hget.
  destruct (Js.truthy (CacheControl head)), (Js.truthy (ETag head));
    reflexivity.
Qed.

Lemma truthy_str v : Js.truthy v = true -> Some (Js.str v) = v.
Proof. destruct v; [reflexivity | discriminate]. Qed.

Lemma fileHeaders_content_type head k :
  fileHeaders mime_lookup head k !! "Content-Type" = Some (contentTypeOf mime_lookup head k).
Proof.
  unfold fileHeaders, setIf.
  destruct (Js.truthy (CacheControl head)), (Js.truthy (ETag head));
    now simplify_map_eq.
Qed.

Lemma fileHeaders_cache_control head k :
  fileHeaders mime_lookup head k !! "Cache-Control"
  = if Js.truthy (CacheControl head) then CacheControl head else None.
Proof.
  unfold fileHeaders, setIf.
  destruct (Js.truthy (CacheControl head)) eqn:Hc,
           (Js.truthy (ETag head));
    simplify_map_eq; auto using truthy_str.
Qed.

Lemma fileHeaders_etag head k :
  fileHeaders mime_lookup head k !! "ETag"
  = if Js.truthy (ETag head) then ETag head else None.
Proof.
  unfold fileHeaders, setIf.
  destruct (Js.truthy (CacheControl head)),
           (Js.truthy (ETag head)) eqn:He;
    simplify_map_eq; auto using truthy_str.
Qed.

Lemma contentTypeOf_cases head k :
  contentTypeOf mime_lookup head k
  = if Js.truthy (ContentType head) then Js.str (ContentType head)
    else if Js.truthy (mime_lookup k) then Js.str (mime_lookup k)
    else "application/octet-stream".
Proof.
  unfold contentTypeOf, Js.orElseOpt, Js.orElse.
  destruct (ContentType head) as [[|c t]|]; simpl;
    try reflexivity;
    destruct (mime_lookup k) as [[|c' t']|]; reflexivity.
Qed.

End ServerFacts.




(** C2 (amended).  A GET whose bucket is present and whose key is empty or
    ends with a slash lists the objects with the key as prefix and sends no
    other command.  When the listing call succeeds the answer is 200 with
    the listing page of what it returned, whatever that is: an empty
    listing is rendered like any other.  When the listing call fails the
    answer is the 500 of the handler. *)
Theorem directory_listing
    (mime_lookup : string -> option string) (s3 : Backend)
    (path b k : string) :
  parseBucketAndKey path = {| bucket := Some b; key := Some k |} ->
  k = EmptyString \/ Js.endsWith k "/" = true ->
  let w := serve mime_lookup s3 path in
  commands w = [ListObjectsV2Command b k "/"]
  /\ (forall out, listObjectsV2 s3 b k = Resolved out ->
        res w = {| statusCode := 200;
                   headers := <["Content-Type" := htmlType]> ∅;
                   payload :=
                     Some (Sent (generateIndexHtml b k
                                   (default [] (CommonPrefixes out))
                                   (default [] (Contents out)) path)) |}
        /\ console w = [])
  /\ (forall err, listObjectsV2 s3 b k = Rejected err ->
        res w = {| statusCode := 500; headers := ∅;
                   payload := Some (Sent "Error fetching from S3") |}
        /\ console w = [err]).
Proof.
  intros Hparse Hdir w. subst w.
  assert (Hc : negb (Js.nonEmpty k) || Js.endsWith k "/" = true).
  { destruct Hdir as [-> | ->]; [reflexivity | apply orb_true_r]. }
  rewrite (serve_directory _ _ _ _ _ Hparse Hc).
  unfold tryCatch, listS3Objects, mbind, M_bind, send.
  destruct (listObjectsV2 s3 b k) as [out | err]; cbn.
  - split; [reflexivity |]. split.
    + intros out' [= <-]. split; reflexivity.
    + intros err' [=].
  - split; [reflexivity |]. split.
    + intros out' [=].
    + intros err' [= <-]. split; reflexivity.
Qed.

Lemma directory_listing_witness :
  let w := serve noMime emptyStore "/b/" in
  commands w = [ListObjectsV2Command "b" EmptyString "/"]
  /\ res w = {| statusCode := 200;
                headers := <["Content-Type" := htmlType]> ∅;
                payload :=
                  Some (Sent (generateIndexHtml "b" EmptyString [] [] "/b/")) |}
  /\ console w = [].
Proof.
  destruct (directory_listing noMime emptyStore "/b/" "b" EmptyString)
    as (Hc & Hok & _); [reflexivity | now left |].
  split; [exact Hc |]. apply (Hok emptyListing). reflexivity.
Defined.

(** C2 as stated fails when the listing call itself fails: [/b] parses to
    the bucket [b] and the empty key, the listing is refused, and the answer
    is a 500, not a 200 with a listing page. *)
Lemma directory_listing_refused :
  parseBucketAndKey "/b" = {| bucket := Some "b"; key := Some EmptyString |}
  /\ commands (serve noMime deniedStore "/b")
     = [ListObjectsV2Command "b" EmptyString "/"]
  /\ statusCode (res (serve noMime deniedStore "/b")) = 500%Z
  /\ statusCode (res (serve noMime deniedStore "/b")) <> 200%Z
  /\ payload (res (serve noMime deniedStore "/b"))
     = Some (Sent "Error fetching from S3").
Proof. repeat (split; [reflexivity |]). split; [discriminate | reflexivity]. Qed.

(** C4 (amended).  A GET resolved as an object (bucket present, key
    non-empty and without trailing slash) whose metadata check succeeds and
    whose body is then fetched successfully is answered with status 200 and
    the body piped.  Content-Type is the content type of the metadata when
    that is present, that is, defined and not the empty string; else the
    type that [mime.lookup] infers from the key, when there is one; else
    application/octet-stream.  Cache-Control and ETag are set, to the
    metadata value, exactly when the metadata field is present.  Nothing is
    logged and each of the two commands is sent once. *)
Theorem object_is_served
    (mime_lookup : string -> option string) (s3 : Backend)
    (path b k : string) (head : HeadObjectOutput) (obj : GetObjectOutput) :
  parseBucketAndKey path = {| bucket := Some b; key := Some k |} ->
  k <> EmptyString ->
  Js.endsWith k "/" = false ->
  headObject s3 b k = Resolved head ->
  getObject s3 b k = Resolved obj ->
  let w := serve mime_lookup s3 path in
  statusCode (res w) = 200%Z
  /\ payload (res w) = Some (Piped (Body obj))
  /\ headers (res w) !! "Content-Type"
     = Some (if Js.truthy (ContentType head) then Js.str (ContentType head)
             else if Js.truthy (mime_lookup k) then Js.str (mime_lookup k)
             else "application/octet-stream")
  /\ headers (res w) !! "Cache-Control"
     = (if Js.truthy (CacheControl head) then CacheControl head else None)
  /\ headers (res w) !! "ETag"
     = (if Js.truthy (ETag head) then ETag head else None)
  /\ console w = []
  /\ commands w = [HeadObjectCommand b k; GetObjectCommand b k].
Proof.
  intros Hparse Hk _ Hhead Hget w. subst w.
  rewrite (serve_object _ _ _ _ _ Hparse Hk).
  unfold tryCatch.
  rewrite (fetchAsFile_resolved _ _ _ _ _ _ Hhead Hget). cbn.
  rewrite fileHeaders_content_type, contentTypeOf_cases,
          fileHeaders_cache_control, fileHeaders_etag.
  repeat split.
Qed.

Lemma object_is_served_witness :
  let w := serve byExtension dirStore "/b/dir/x.txt" in
  statusCode (res w) = 200%Z
  /\ payload (res w) = Some (Piped "hello")
  /\ headers (res w) !! "Content-Type" = Some "text/plain"
  /\ headers (res w) !! "Cache-Control" = None
  /\ headers (res w) !! "ETag" = Some "etag-x".
Proof.
  destruct (object_is_served byExtension dirStore "/b/dir/x.txt" "b"
              "dir/x.txt"
              {| ContentType := None; CacheControl := None;
                 ETag := Some "etag-x" |}
              {| Body := "hello" |})
    as (Hs & Hp & Hct & Hcc & He & _);
    try reflexivity; [discriminate |].
  repeat split; assumption.
Defined.

(** C4 as stated fails when the metadata check succeeds and the fetch of
    the body does not: the request is resolved as an object, the headers
    are set from the metadata, and the answer is a 500. *)
Lemma object_body_refused :
  parseBucketAndKey "/b/logo.png"
  = {| bucket := Some "b"; key := Some "logo.png" |}
  /\ headObject headOnlyStore "b" "logo.png"
     = Resolved {| ContentType := Some "image/png";
                   CacheControl := Some "max-age=60"; ETag := None |}
  /\ statusCode (res (serve noMime headOnlyStore "/b/logo.png")) = 500%Z
  /\ statusCode (res (serve noMime headOnlyStore "/b/logo.png")) <> 200%Z.
Proof. repeat (split; [reflexivity |]). discriminate. Qed.

(** C5 (amended).  On a GET resolved as an object, a failure of the
    metadata check or of the fetch of the body that is not a not-found
    ([isNotFound] is false: the status is not 404 and the name is neither
    NotFound nor NoSuchKey) is answered with status 500 and the body
    Error fetching from S3; the error is written to the console, once, and
    no command is sent again. *)
Theorem fetch_failure_is_500
    (mime_lookup : string -> option string) (s3 : Backend)
    (path b k : string) (err : Thrown) :
  parseBucketAndKey path = {| bucket := Some b; key := Some k |} ->
  k <> EmptyString ->
  isNotFound err = false ->
  let w := serve mime_lookup s3 path in
  (headObject s3 b k = Rejected err ->
   res w = {| statusCode := 500; headers := ∅;
              payload := Some (Sent "Error fetching from S3") |}
   /\ console w = [err]
   /\ commands w = [HeadObjectCommand b k])
  /\ (forall head,
        headObject s3 b k = Resolved head ->
        getObject s3 b k = Rejected err ->
        statusCode (res w) = 500%Z
        /\ payload (res w) = Some (Sent "Error fetching from S3")
        /\ console w = [err]
        /\ commands w = [HeadObjectCommand b k; GetObjectCommand b k]).
Proof.
  intros Hparse Hk Hnf w. subst w.
  rewrite (serve_object _ _ _ _ _ Hparse Hk).
  unfold tryCatch. split.
  - intros Hhead.
    rewrite (fetchAsFile_head_rejected _ _ _ _ _ Hhead).
    unfold fileNotFound. rewrite Hnf. repeat split.
  - intros head Hhead Hget.
    rewrite (fetchAsFile_get_rejected _ _ _ _ _ _ Hhead Hget).
    unfold fileNotFound. rewrite Hnf. repeat split.
Qed.

Lemma fetch_failure_is_500_witness :
  let w := serve noMime deniedStore "/b/report.pdf" in
  res w = {| statusCode := 500; headers := ∅;
             payload := Some (Sent "Error fetching from S3") |}
  /\ console w = [accessDenied]
  /\ commands w = [HeadObjectCommand "b" "report.pdf"].
Proof.
  destruct (fetch_failure_is_500 noMime deniedStore "/b/report.pdf" "b"
              "report.pdf" accessDenied) as [H _];
    try reflexivity; [discriminate |].
  apply H. reflexivity.
Defined.

(** C5 as stated fails on the body of the answer: a refused metadata check
    is a failure that is not a not-found, and the body sent with the 500 is
    Error fetching from S3, not Error fetching from object storage. *)
Lemma fetch_failure_message :
  parseBucketAndKey "/b/report.pdf"
  = {| bucket := Some "b"; key := Some "report.pdf" |}
  /\ headObject deniedStore "b" "report.pdf" = Rejected accessDenied
  /\ isNotFound accessDenied = false
  /\ statusCode (res (serve noMime deniedStore "/b/report.pdf")) = 500%Z
  /\ payload (res (serve noMime deniedStore "/b/report.pdf"))
     = Some (Sent "Error fetching from S3")
  /\ payload (res (serve noMime deniedStore "/b/report.pdf"))
     <> Some (Sent "Error fetching from object storage").
Proof. repeat (split; [reflexivity |]). discriminate. Qed.

(** Whatever the service answers, the object branch begins with the
    metadata check. *)
Lemma object_branch_first_command
    (mime_lookup : string -> option string) (s3 : Backend)
    (path b k : string) :
  exists more,
    commands (snd (tryCatch
                     (tryCatch (fetchAsFile mime_lookup s3 b k)
                               (fileNotFound s3 b k path))
                     (internalError "Error fetching from S3") freshWorld))
    = HeadObjectCommand b k :: more.
Proof.
  unfold tryCatch.
  destruct (headObject s3 b k) as [head | err] eqn:Hhead.
  - destruct (getObject s3 b k) as [obj | err] eqn:Hget.
    + rewrite (fetchAsFile_resolved _ _ _ _ _ _ Hhead Hget). eauto.
    + rewrite (fetchAsFile_get_rejected _ _ _ _ _ _ Hhead Hget).
      unfold fileNotFound, listS3Objects, mbind, M_bind, send.
      destruct (isNotFound err); [| cbn; eauto].
      destruct (listObjectsV2 s3 b _) as [out | err']; [| cbn; eauto].
      destruct (default [] (CommonPrefixes out)), (default [] (Contents out));
        cbn; eauto.
  - rewrite (fetchAsFile_head_rejected _ _ _ _ _ Hhead).
    unfold fileNotFound, listS3Objects, mbind, M_bind, send.
    destruct (isNotFound err); [| cbn; eauto].
    destruct (listObjectsV2 s3 b _) as [out | err']; [| cbn; eauto].
    destruct (default [] (CommonPrefixes out)), (default [] (Contents out));
      cbn; eauto.
Qed.

(** C9.  The key of a successful parse is a join, with slashes, of
    non-empty slash-free segments: it does not begin with a slash, does not
    end with one, and holds no two slashes in a row.  So the directory test
    of the handler (key empty or ending with a slash) holds exactly when the
    key is empty, and every request with a non-empty key, with or without a
    trailing slash in its path, begins with the metadata check on that key
    and, when the check is rejected as not found, goes on with the listing
    of the key followed by a slash: [/b/dir/] is resolved object first, on
    the key [dir], with the directory as fallback. *)
Theorem key_shape_and_resolution
    (mime_lookup : string -> option string) (s3 : Backend)
    (path b k : string) :
  parseBucketAndKey path = {| bucket := Some b; key := Some k |} ->
  (exists segs,
     Forall isSegment segs /\ k = Js.join "/" segs)
  /\ Js.startsWith k "/" = false
  /\ Js.endsWith k "/" = false
  /\ Js.includes k "//" = false
  /\ (negb (Js.truthy (Some k)) || Js.endsWith k "/" = true
      <-> k = EmptyString)
  /\ (k <> EmptyString ->
      (exists more,
         commands (serve mime_lookup s3 path) = HeadObjectCommand b k :: more)
      /\ forall err,
           headObject s3 b k = Rejected err ->
           isNotFound err = true ->
           commands (serve mime_lookup s3 path)
           = [HeadObjectCommand b k;
              ListObjectsV2Command b (k +:+ "/") "/"]).
Proof.
  intros Hparse.
  destruct (ParserFacts.parse_some_inv _ _ _ Hparse)
    as (segs & _ & Hk & _ & Hsegs).
  destruct (ParserFacts.join_segments_shape segs Hsegs) as (Hs & He & Hi).
  rewrite <- Hk in Hs, He, Hi.
  split; [now exists segs |].
  split; [exact Hs |]. split; [exact He |]. split; [exact Hi |]. split.
  - rewrite He, orb_false_r. cbn [Js.truthy].
    destruct k; split; intros H; try reflexivity; discriminate.
  - intros Hne. rewrite (serve_object _ _ _ _ _ Hparse Hne).
    split; [apply object_branch_first_command |].
    intros err Hhead Hnf. unfold tryCatch.
    rewrite (fetchAsFile_head_rejected _ _ _ _ _ Hhead).
    unfold fileNotFound, listS3Objects, mbind, M_bind, send.
    rewrite Hnf, He.
    destruct (listObjectsV2 s3 b _) as [out | err']; [| reflexivity].
    destruct (default [] (CommonPrefixes out)), (default [] (Contents out));
      reflexivity.
Qed.

Lemma key_shape_and_resolution_witness :
  parseBucketAndKey "/b/dir/" = {| bucket := Some "b"; key := Some "dir" |}
  /\ commands (serve noMime dirStore "/b/dir/")
     = [HeadObjectCommand "b" "dir"; ListObjectsV2Command "b" "dir/" "/"].
Proof.
  split; [reflexivity |].
  destruct (key_shape_and_resolution noMime dirStore "/b/dir/" "b" "dir")
    as (_ & _ & _ & _ & _ & H); [reflexivity |].
  destruct H as [_ H]; [discriminate |].
  apply (H notFound); reflexivity.
Defined.

(** ** More on the handlers *)

Lemma segments_nil_iff p : segments p = [] <-> onlySlashes p = true.
Proof.
  induction p as [|c p IH]; [split; reflexivity |].
  simpl onlySlashes. unfold segments in *. simpl Js.split.
  destruct (Ascii.eqb c "/") eqn:Hc; simpl.
  - exact IH.
  - pose proof (JsFacts.split_not_nil "/" p) as Hne.
    destruct (Js.split "/" p) as [|seg rest]; [contradiction |].
    simpl. split; discriminate.
Qed.

Lemma parse_none_iff p :
  parseBucketAndKey p = {| bucket := None; key := None |}
  <-> onlySlashes p = true.
Proof.
  rewrite ParserFacts.parse_by_segments, <- segments_nil_iff.
  destruct (segments p); split; intros H; try reflexivity; discriminate.
Qed.

Lemma parse_cases p :
  parseBucketAndKey p = {| bucket := None; key := None |}
  \/ exists b k, parseBucketAndKey p = {| bucket := Some b; key := Some k |}.
Proof.
  rewrite ParserFacts.parse_by_segments.
  destruct (segments p); [now left | right; eauto].
Qed.

Section HandlerRuns.
Variable mime_lookup : string -> option string.
Variable s3 : Backend.

Lemma serve_bad_path path :
  path <> "/" ->
  parseBucketAndKey path = {| bucket := None; key := None |} ->
  serve mime_lookup s3 path
  = {| res := {| statusCode := 400; headers := ∅;
                 payload := Some (Sent "Bad path. Use /<bucket>/<key...>") |};
       console := []; commands := [] |}.
Proof.
  intros Hroot Hparse. unfold serve.
  destruct (String.eqb_spec path "/") as [-> | _]; [contradiction |].
  unfold getAny. now rewrite Hparse.
Qed.

(** The handler of the regular-expression route is what serves every
    path with a bucket. *)
Lemma serve_getAny path b k :
  parseBucketAndKey path = {| bucket := Some b; key := Some k |} ->
  serve mime_lookup s3 path = snd (getAny mime_lookup s3 path freshWorld).
Proof.
  intros Hparse. unfold serve.
  now rewrite (parse_not_root _ _ _ Hparse).
Qed.

Lemma getAny_bad_path path :
  parseBucketAndKey path = {| bucket := None; key := None |} ->
  snd (getAny mime_lookup s3 path freshWorld)
  = {| res := {| statusCode := 400; headers := ∅;
                 payload := Some (Sent "Bad path. Use /<bucket>/<key...>") |};
       console := []; commands := [] |}.
Proof. intros Hparse. unfold getAny. now rewrite Hparse. Qed.

Lemma internalError_run message err w :
  internalError message err w
  = (Normal tt,
     {| res := {| statusCode := 500; headers := headers (res w);
                  payload := Some (Sent message) |};
        console := console w ++ [err]; commands := commands w |}).
Proof. reflexivity. Qed.

(** The catch block of the file attempt, case by case. *)
Lemma fileNotFound_run b k path err w :
  Js.endsWith k "/" = false ->
  fileNotFound s3 b k path err w
  = if isNotFound err then
      let cs := commands w ++ [ListObjectsV2Command b (k +:+ "/") "/"] in
      match listObjectsV2 s3 b (k +:+ "/") with
      | Rejected e =>
          (Throw e, {| res := res w; console := console w; commands := cs |})
      | Resolved out =>
          let fs := default [] (CommonPrefixes out) in
          let fl := default [] (Contents out) in
          if (0 <? length fs)%nat || (0 <? length fl)%nat then
            (Normal tt,
             {| res := {| statusCode := statusCode (res w);
                          headers :=
                            <["Content-Type" := htmlType]> (headers (res w));
                          payload :=
                            Some (Sent (generateIndexHtml b (k +:+ "/") fs fl
                                          (withTrailingSlash path))) |};
                console := console w; commands := cs |})
          else
            (Normal tt,
             {| res := {| statusCode := 404; headers := headers (res w);
                          payload := Some (Sent "Not found") |};
                console := console w; commands := cs |})
      end
    else (Throw err, w).
Proof.
  intros Hend. unfold fileNotFound, listS3Objects, mbind, M_bind, send.
  rewrite Hend. fold (withTrailingSlash path).
  destruct (isNotFound err); [| reflexivity].
  destruct (listObjectsV2 s3 b (k +:+ "/")) as [out | e]; [| reflexivity].
  cbv zeta.
  destruct (default [] (CommonPrefixes out)), (default [] (Contents out));
    reflexivity.
Qed.

End HandlerRuns.

(** Case analysis of a request in the object branch: the answers to the
    metadata check, the fetch of the body and the fallback listing. *)
Ltac object_cases Hparse Hk :=
  rewrite (serve_object _ _ _ _ _ Hparse Hk); unfold tryCatch;
  let Hend := fresh "Hend" in
  pose proof (parse_key_no_trailing_slash _ _ _ Hparse) as Hend;
  match goal with
  | |- context [fetchAsFile ?m ?s ?b ?k freshWorld] =>
      let Hhead := fresh "Hhead" in
      let Hget := fresh "Hget" in
      destruct (headObject s b k) as [?head | ?err] eqn:Hhead;
      [ destruct (getObject s b k) as [?obj | ?err] eqn:Hget;
        [ rewrite (fetchAsFile_resolved m s b k _ _ Hhead Hget)
        | rewrite (fetchAsFile_get_rejected m s b k _ _ Hhead Hget),
                  (fileNotFound_run s b k _ _ _ Hend) ]
      | rewrite (fetchAsFile_head_rejected m s b k _ Hhead),
                (fileNotFound_run s b k _ _ _ Hend) ]
  end;
  try match goal with
  | |- context [isNotFound ?e] =>
      let Hnf := fresh "Hnf" in
      destruct (isNotFound e) eqn:Hnf;
      [ cbv zeta;
        match goal with
        | |- context [listObjectsV2 ?s ?b ?p] =>
            let Hlist := fresh "Hlist" in
            destruct (listObjectsV2 s b p) as [?out | ?err] eqn:Hlist;
            [ match goal with
              | |- context [if ?c then _ else _] =>
                  let Hany := fresh "Hany" in destruct c eqn:Hany
              end
            | ]
        end
      | ]
  end;
  rewrite ?internalError_run; cbn -[generateIndexHtml bucketsHtml].

Ltac directory_cases Hparse Hdir :=
  rewrite (serve_directory _ _ _ _ _ Hparse Hdir);
  unfold tryCatch, listS3Objects, mbind, M_bind, send;
  match goal with
  | |- context [listObjectsV2 ?s ?b ?p] =>
      let Hlist := fresh "Hlist" in
      destruct (listObjectsV2 s b p) as [?out | ?err] eqn:Hlist
  end;
  rewrite ?internalError_run; cbn -[generateIndexHtml bucketsHtml].

Ltac root_cases :=
  unfold serve; change (String.eqb "/" "/") with true; cbv iota;
  unfold getRoot, tryCatch, mbind, M_bind, send;
  match goal with
  | |- context [listBuckets ?s] =>
      let Hlist := fresh "Hlist" in
      destruct (listBuckets s) as [?out | ?err] eqn:Hlist
  end;
  rewrite ?internalError_run; cbn -[generateIndexHtml bucketsHtml].

Ltac all_commands :=
  repeat (apply List.Forall_cons; [first [assumption | reflexivity] |]);
  apply List.Forall_nil.

Section HandlerFacts.
Variable mime_lookup : string -> option string.
Variable s3 : Backend.

Lemma dir_condition k :
  negb (Js.nonEmpty k) || Js.endsWith k "/" = true ->
  Js.endsWith k "/" = false -> k = EmptyString.
Proof. intros H He. rewrite He, orb_false_r in H. now destruct k. Qed.

(** X1.  Every request is answered, in one of five ways: a 200 with an
    HTML page, a 200 with a piped object, the 400 for a path without
    bucket, the 404, or a 500 with one of the two fixed messages.  An error
    is logged exactly in the last case, and then exactly one. *)
Theorem every_request_is_answered (path : string) :
  let w := serve mime_lookup s3 path in
  (exists html,
     statusCode (res w) = 200%Z /\ payload (res w) = Some (Sent html)
     /\ headers (res w) !! "Content-Type" = Some htmlType /\ console w = [])
  \/ (exists stream ct,
        statusCode (res w) = 200%Z /\ payload (res w) = Some (Piped stream)
        /\ headers (res w) !! "Content-Type" = Some ct /\ console w = [])
  \/ (res w = {| statusCode := 400; headers := ∅;
                 payload := Some (Sent "Bad path. Use /<bucket>/<key...>") |}
      /\ console w = [] /\ commands w = [])
  \/ (statusCode (res w) = 404%Z /\ payload (res w) = Some (Sent "Not found")
      /\ console w = [])
  \/ (exists err msg,
        statusCode (res w) = 500%Z /\ payload (res w) = Some (Sent msg)
        /\ (msg = "Error listing buckets" \/ msg = "Error fetching from S3")
        /\ console w = [err]).
Proof.
  intros w. subst w.
  destruct (String.eqb_spec path "/") as [-> | Hroot].
  { root_cases.
    - left. eexists. repeat split; try apply lookup_insert_eq.
    - do 4 right. exists err, "Error listing buckets". repeat split. now left. }
  destruct (parse_cases path) as [Hnone | (b & k & Hparse)].
  { rewrite (serve_bad_path _ _ _ Hroot Hnone). do 2 right. left. now repeat split. }
  destruct (Js.nonEmpty k) eqn:Hk.
  - assert (Hne : k <> EmptyString) by (intros ->; discriminate).
    object_cases Hparse Hne.
    + right. left. do 2 eexists. repeat split;
        try apply fileHeaders_content_type.
    + left. eexists. repeat split; try apply lookup_insert_eq.
    + do 3 right. left. now repeat split.
    + do 4 right. do 2 eexists. repeat split. now right.
    + do 4 right. do 2 eexists. repeat split. now right.
    + left. eexists. repeat split; try apply lookup_insert_eq.
    + do 3 right. left. now repeat split.
    + do 4 right. do 2 eexists. repeat split. now right.
    + do 4 right. do 2 eexists. repeat split. now right.
  - assert (Hdir : negb (Js.nonEmpty k) || Js.endsWith k "/" = true)
      by now rewrite Hk.
    directory_cases Hparse Hdir.
    + left. eexists. repeat split; try apply lookup_insert_eq.
    + do 4 right. do 2 eexists. repeat split. now right.
Qed.

(** X2.  The handler of the regular-expression route answers 400 exactly
    for the request paths that hold nothing but slashes; nothing is then
    sent to the service, no header is set and nothing is logged. *)
Theorem bad_path_is_400 (path : string) :
  let w := snd (getAny mime_lookup s3 path freshWorld) in
  (statusCode (res w) = 400%Z <-> onlySlashes path = true)
  /\ (statusCode (res w) = 400%Z ->
      payload (res w) = Some (Sent "Bad path. Use /<bucket>/<key...>")
      /\ headers (res w) = ∅ /\ console w = [] /\ commands w = []).
Proof.
  intros w. subst w.
  destruct (parse_cases path) as [Hnone | (b & k & Hparse)].
  { rewrite (getAny_bad_path _ _ _ Hnone). cbn.
    apply parse_none_iff in Hnone. now repeat split. }
  assert (Hsl : onlySlashes path = false).
  { destruct (onlySlashes path) eqn:H; [| reflexivity].
    apply parse_none_iff in H. rewrite H in Hparse. discriminate. }
  rewrite Hsl, <- (serve_getAny _ _ _ _ _ Hparse).
  destruct (Js.nonEmpty k) eqn:Hk.
  - assert (Hne : k <> EmptyString) by (intros ->; discriminate).
    object_cases Hparse Hne;
      (split; [split; [intros [=] | intros [=]] | intros [=]]).
  - assert (Hdir : negb (Js.nonEmpty k) || Js.endsWith k "/" = true)
      by now rewrite Hk.
    directory_cases Hparse Hdir;
      (split; [split; [intros [=] | intros [=]] | intros [=]]).
Qed.

(** X3.  When the metadata check succeeds and the fetch of the body is
    rejected as not found, the handler falls back to the listing too, as a
    third command.  The headers set from the metadata stay on the answer:
    the listing page replaces Content-Type only, and the 404 keeps the
    content type of the object. *)
Theorem body_not_found_falls_back
    (path b k : string) (head : HeadObjectOutput) (err : Thrown)
    (out : ListObjectsV2Output) :
  parseBucketAndKey path = {| bucket := Some b; key := Some k |} ->
  k <> EmptyString ->
  headObject s3 b k = Resolved head ->
  getObject s3 b k = Rejected err ->
  isNotFound err = true ->
  listObjectsV2 s3 b (k +:+ "/") = Resolved out ->
  let fs := default [] (CommonPrefixes out) in
  let fl := default [] (Contents out) in
  let w := serve mime_lookup s3 path in
  commands w = [HeadObjectCommand b k; GetObjectCommand b k;
                ListObjectsV2Command b (k +:+ "/") "/"]
  /\ console w = []
  /\ (fs <> [] \/ fl <> [] ->
      res w = {| statusCode := 200;
                 headers := <["Content-Type" := htmlType]>
                              (fileHeaders mime_lookup head k);
                 payload :=
                   Some (Sent (generateIndexHtml b (k +:+ "/") fs fl
                                 (withTrailingSlash path))) |})
  /\ (fs = [] /\ fl = [] ->
      res w = {| statusCode := 404;
                 headers := fileHeaders mime_lookup head k;
                 payload := Some (Sent "Not found") |}).
Proof.
  intros Hparse Hk Hhead Hget Hnf Hlist fs fl w. subst w.
  rewrite (serve_object _ _ _ _ _ Hparse Hk). unfold tryCatch.
  rewrite (fetchAsFile_get_rejected _ _ _ _ _ _ Hhead Hget).
  rewrite (fileNotFound_run _ _ _ _ _ _
             (parse_key_no_trailing_slash _ _ _ Hparse)).
  rewrite Hnf, Hlist. cbv zeta. fold fs fl.
  destruct fs as [|f fs'], fl as [|f' fl']; cbn -[generateIndexHtml];
    (split; [reflexivity |]); (split; [reflexivity |]); split;
    try reflexivity.
  - intros [H | H]; contradiction.
  - intros [_ H]. discriminate.
  - intros [H _]. discriminate.
  - intros [H _]. discriminate.
Qed.

(** X4.  When the fallback listing itself is rejected the answer is the
    500 of the handler, whatever the error is: a listing rejected as not
    found (a bucket that does not exist) is not answered 404. *)
Theorem fallback_listing_failure_is_500
    (path b k : string) (err err' : Thrown) :
  parseBucketAndKey path = {| bucket := Some b; key := Some k |} ->
  k <> EmptyString ->
  headObject s3 b k = Rejected err ->
  isNotFound err = true ->
  listObjectsV2 s3 b (k +:+ "/") = Rejected err' ->
  let w := serve mime_lookup s3 path in
  res w = {| statusCode := 500; headers := ∅;
             payload := Some (Sent "Error fetching from S3") |}
  /\ console w = [err']
  /\ commands w = [HeadObjectCommand b k;
                   ListObjectsV2Command b (k +:+ "/") "/"].
Proof.
  intros Hparse Hk Hhead Hnf Hlist w. subst w.
  rewrite (serve_object _ _ _ _ _ Hparse Hk). unfold tryCatch.
  rewrite (fetchAsFile_head_rejected _ _ _ _ _ Hhead).
  rewrite (fileNotFound_run _ _ _ _ _ _
             (parse_key_no_trailing_slash _ _ _ Hparse)).
  rewrite Hnf, Hlist. now repeat split.
Qed.

(** X5.  The root handler sends the one command that lists the buckets.
    The handler of the regular-expression route sends at most three
    commands, no command twice, never the listing of the buckets, and every
    one of them reads what the path names: HeadObject and GetObject on the
    parsed bucket and key, ListObjectsV2 on the parsed bucket with the slash
    as delimiter, on the empty prefix or on the parsed key followed by a
    slash. *)
Theorem commands_read_what_the_path_names (path : string) :
  commands (snd (getRoot s3 freshWorld)) = [ListBucketsCommand]
  /\ let w := snd (getAny mime_lookup s3 path freshWorld) in
     Forall (commandFor path) (commands w)
     /\ (length (commands w) <= 3)%nat
     /\ NoDup (commands w).
Proof.
  split.
  { unfold getRoot, tryCatch, mbind, M_bind, send.
    destruct (listBuckets s3); reflexivity. }
  intros w. subst w.
  assert (Hnd3 : forall a b c : Command,
             a <> b -> a <> c -> b <> c -> NoDup [a; b; c]).
  { intros a b c Hab Hac Hbc.
    rewrite !NoDup_cons, !elem_of_cons, !elem_of_nil.
    split_and!; [tauto | tauto | tauto | apply NoDup_nil_2]. }
  assert (Hnd2 : forall a b : Command, a <> b -> NoDup [a; b]).
  { intros a b Hab.
    rewrite !NoDup_cons, !elem_of_cons, !elem_of_nil.
    split_and!; [tauto | tauto | apply NoDup_nil_2]. }
  assert (Hnd1 : forall a : Command, NoDup [a]).
  { intros a. apply NoDup_singleton. }
  destruct (parse_cases path) as [Hnone | (b & k & Hparse)].
  { rewrite (getAny_bad_path _ _ _ Hnone). cbn.
    split; [constructor | split; [lia | apply NoDup_nil_2]]. }
  rewrite <- (serve_getAny _ _ _ _ _ Hparse).
  assert (Hb : bucket (parseBucketAndKey path) = Some b) by now rewrite Hparse.
  assert (Hkey : key (parseBucketAndKey path) = Some k) by now rewrite Hparse.
  destruct (Js.nonEmpty k) eqn:Hk.
  - assert (Hne : k <> EmptyString) by (intros ->; discriminate).
    assert (Hl : commandFor path (ListObjectsV2Command b (k +:+ "/") "/")).
    { split; [reflexivity |]. split; [exact Hb |]. right. now exists k. }
    assert (Hh : commandFor path (HeadObjectCommand b k)) by now split.
    assert (Hg : commandFor path (GetObjectCommand b k)) by now split.
    object_cases Hparse Hne;
      (split; [all_commands
              | split; [lia | first [apply Hnd3 | apply Hnd2 | apply Hnd1];
                              discriminate]]).
  - assert (Hdir : negb (Js.nonEmpty k) || Js.endsWith k "/" = true)
      by now rewrite Hk.
    assert (Hl : commandFor path (ListObjectsV2Command b k "/")).
    { split; [reflexivity |]. split; [exact Hb |]. left.
      split; [exact Hkey | now destruct k]. }
    directory_cases Hparse Hdir;
      (split; [all_commands | split; [lia | apply Hnd1]]).
Qed.

(** X6.  Two paths that parse to the same bucket and key are served alike:
    the same commands are sent, the same errors logged, and the answers
    have the same status and headers.  Only the text of a listing page,
    which shows the request path, can differ. *)
Theorem same_parse_same_outline (p q b k : string) :
  parseBucketAndKey p = {| bucket := Some b; key := Some k |} ->
  parseBucketAndKey q = {| bucket := Some b; key := Some k |} ->
  outline (serve mime_lookup s3 p) = outline (serve mime_lookup s3 q).
Proof.
  intros Hp Hq.
  destruct (Js.nonEmpty k) eqn:Hk.
  - assert (Hne : k <> EmptyString) by (intros ->; discriminate).
    pose proof (parse_key_no_trailing_slash _ _ _ Hp) as Hend.
    rewrite (serve_object _ _ _ _ _ Hp Hne), (serve_object _ _ _ _ _ Hq Hne).
    unfold tryCatch.
    destruct (headObject s3 b k) as [head | err] eqn:Hhead.
    + destruct (getObject s3 b k) as [obj | err] eqn:Hget.
      * now rewrite (fetchAsFile_resolved _ _ _ _ _ _ Hhead Hget).
      * rewrite (fetchAsFile_get_rejected _ _ _ _ _ _ Hhead Hget).
        rewrite !(fileNotFound_run s3 b k _ _ _ Hend).
        destruct (isNotFound err); [| reflexivity]. cbv zeta.
        destruct (listObjectsV2 s3 b _) as [out | err']; [| reflexivity].
        destruct (_ || _); reflexivity.
    + rewrite (fetchAsFile_head_rejected _ _ _ _ _ Hhead).
      rewrite !(fileNotFound_run s3 b k _ _ _ Hend).
      destruct (isNotFound err); [| reflexivity]. cbv zeta.
      destruct (listObjectsV2 s3 b _) as [out | err']; [| reflexivity].
      destruct (_ || _); reflexivity.
  - assert (Hdir : negb (Js.nonEmpty k) || Js.endsWith k "/" = true)
      by now rewrite Hk.
    rewrite (serve_directory _ _ _ _ _ Hp Hdir),
            (serve_directory _ _ _ _ _ Hq Hdir).
    unfold tryCatch, listS3Objects, mbind, M_bind, send.
    destruct (listObjectsV2 s3 b k); reflexivity.
Qed.

(** X7.  The link of a row of the buckets index leads to the listing of
    the root of that bucket: for a bucket whose name is a path segment, the
    request for the link sends the one command that lists the bucket with
    the empty prefix. *)
Theorem bucket_row_leads_to_root_listing (bk : Bucket) :
  isSegment (Name bk) ->
  exists label created,
    bucketRow bk = row ("/" +:+ Name bk) label created
    /\ commands (serve mime_lookup s3 ("/" +:+ Name bk))
       = [ListObjectsV2Command (Name bk) EmptyString "/"].
Proof.
  intros Hseg. do 2 eexists. split; [reflexivity |].
  assert (Hparse : parseBucketAndKey ("/" +:+ Name bk)
                   = {| bucket := Some (Name bk); key := Some EmptyString |}).
  { rewrite ParserFacts.parse_by_segments.
    change ("/" +:+ Name bk) with (String "/" (Name bk)).
    rewrite ParserFacts.segments_leading_slash.
    now rewrite (ParserFacts.segments_one _ Hseg). }
  assert (Hdir : negb (Js.nonEmpty EmptyString)
                 || Js.endsWith EmptyString "/" = true) by reflexivity.
  directory_cases Hparse Hdir; reflexivity.
Qed.

End HandlerFacts.

(** ** More on the renderer and the parser *)

Module RenderFacts.
Import Js JsFacts ParserFacts.

Lemma parse_link b key :
  isSegment b ->
  parseBucketAndKey ("/" +:+ b +:+ "/" +:+ key)
  = {| bucket := Some b; key := Some (join "/" (segments key)) |}.
Proof.
  intros Hb. rewrite parse_by_segments.
  change ("/" +:+ b +:+ "/" +:+ key) with (String "/" (b +:+ String "/" key)).
  rewrite segments_leading_slash, segments_app_sep.
  now rewrite (segments_one _ Hb).
Qed.

Lemma join_cons_cons sep x y l :
  join sep (x :: y :: l) = x +:+ sep +:+ join sep (y :: l).
Proof. reflexivity. Qed.

(** Splitting and joining again gives the string back. *)
Lemma join_split s : join "/" (split "/" s) = s.
Proof.
  induction s as [|c s IH]; [reflexivity |].
  simpl split. pose proof (split_not_nil "/" s) as Hne.
  destruct (split "/" s) as [|seg rest] eqn:Hs; [contradiction |].
  destruct (Ascii.eqb c "/") eqn:Hc.
  - apply Ascii.eqb_eq in Hc as ->.
    rewrite join_cons_cons, IH. reflexivity.
  - destruct rest as [|y rest].
    + simpl in IH. now rewrite <- IH.
    + rewrite join_cons_cons. rewrite join_cons_cons in IH.
      now rewrite <- IH.
Qed.

Lemma stripTrailingSlash_app_slash s : stripTrailingSlash (s +:+ "/") = s.
Proof.
  induction s as [|c s IH]; [reflexivity |].
  change (String c s +:+ "/") with (String c (s +:+ "/")).
  simpl stripTrailingSlash.
  destruct (s +:+ "/") eqn:Hs; [destruct s; discriminate |].
  now rewrite IH.
Qed.

Lemma stripTrailingSlash_id s :
  endsWith s "/" = false -> stripTrailingSlash s = s.
Proof.
  induction s as [|c s IH]; [reflexivity |].
  rewrite endsWith_cons. intros H.
  destruct (String.eqb (String c s) "/") eqn:He; [discriminate |].
  simpl. destruct s as [|c' s'].
  - destruct (Ascii.eqb c "/") eqn:Hc; [| reflexivity].
    apply Ascii.eqb_eq in Hc as ->. discriminate.
  - now rewrite IH.
Qed.

Lemma slice_app prefix rest :
  slice (String.length prefix) (prefix +:+ rest) = rest.
Proof. induction prefix as [|c p IH]; [now destruct rest | exact IH]. Qed.

Lemma append_eq_self_inv a b : a +:+ b = a -> b = EmptyString.
Proof.
  induction a as [|c a IH]; simpl; [easy |].
  intros [= H]. auto.
Qed.

Lemma occursIn_refl s : occursIn s s.
Proof. exists EmptyString, EmptyString. now rewrite append_nil_r. Qed.

Lemma occursIn_app t a s b : occursIn t s -> occursIn t (a +:+ s +:+ b).
Proof.
  intros (x & y & ->). exists (a +:+ x), (y +:+ b).
  now rewrite !append_assoc.
Qed.

Lemma occursIn_join sep x l : In x l -> occursIn x (join sep l).
Proof.
  induction l as [|y l IH]; [contradiction |].
  intros [-> | Hin].
  - destruct l as [|z l]; [apply occursIn_refl |].
    rewrite join_cons_cons. exists EmptyString, (sep +:+ join sep (z :: l)).
    reflexivity.
  - destruct l as [|z l]; [contradiction |].
    rewrite join_cons_cons.
    destruct (IH Hin) as (a & b & ->).
    exists (y +:+ sep +:+ a), b. now rewrite !append_assoc.
Qed.

Lemma startsWith_app t rest : startsWith (t +:+ rest) t = true.
Proof.
  induction t as [|c t IH]; simpl; [now destruct rest |].
  now rewrite Ascii.eqb_refl, IH.
Qed.

Lemma occursIn_includes t s : occursIn t s -> includes s t = true.
Proof.
  intros (a & b & ->). induction a as [|c a IH].
  - rewrite includes_unfold. simpl. now rewrite startsWith_app.
  - rewrite includes_unfold.
    destruct (startsWith _ t); [reflexivity | exact IH].
Qed.

Lemma filter_no_empty l :
  ~ In EmptyString l -> List.filter nonEmpty l = l.
Proof.
  induction l as [|x l IH]; [reflexivity |].
  intros Hno. simpl. destruct x as [|c x].
  - exfalso. apply Hno. now left.
  - simpl. rewrite IH; [reflexivity |]. intros H. apply Hno. now right.
Qed.

Lemma split_head_empty k rest :
  split "/" k = EmptyString :: rest ->
  k = EmptyString \/ startsWith k "/" = true.
Proof.
  destruct k as [|c k]; [now left |]. simpl split.
  destruct (Ascii.eqb c "/") eqn:Hc.
  - apply Ascii.eqb_eq in Hc as ->. intros _. right. now destruct k.
  - destruct (split "/" k); discriminate.
Qed.

Lemma includes_cons c s t : includes s t = true -> includes (String c s) t = true.
Proof.
  intros H. rewrite includes_unfold. now destruct (startsWith _ t).
Qed.

Lemma endsWith_cons_intro c s t :
  endsWith s t = true -> endsWith (String c s) t = true.
Proof.
  intros H. rewrite endsWith_cons. now destruct (String.eqb _ t).
Qed.

(** An empty segment after the first comes from a slash at the end or from
    two slashes in a row. *)
Lemma split_tail_empty k :
  In EmptyString (tl (split "/" k)) ->
  endsWith k "/" = true \/ includes k "//" = true.
Proof.
  induction k as [|c k IH]; [contradiction |].
  simpl split. pose proof (split_not_nil "/" k) as Hne.
  destruct (split "/" k) as [|seg rest] eqn:Hs; [contradiction |].
  destruct (Ascii.eqb c "/") eqn:Hc.
  - apply Ascii.eqb_eq in Hc as ->. cbn [tl]. intros [-> | Hin].
    + destruct (split_head_empty _ _ Hs) as [-> | Hst]; [now left |].
      right. rewrite includes_unfold.
      change (startsWith (String "/" k) "//")
        with (Ascii.eqb "/" "/" && startsWith k "/").
      now rewrite Hst.
    + destruct (IH Hin) as [H | H].
      * left. now apply endsWith_cons_intro.
      * right. now apply includes_cons.
  - cbn [tl]. intros Hin. destruct (IH Hin) as [H | H].
    + left. now apply endsWith_cons_intro.
    + right. now apply includes_cons.
Qed.

Lemma empty_segment_inv k :
  In EmptyString (split "/" k) ->
  k = EmptyString \/ startsWith k "/" = true
  \/ endsWith k "/" = true \/ includes k "//" = true.
Proof.
  pose proof (split_not_nil "/" k) as Hne.
  destruct (split "/" k) as [|seg rest] eqn:Hs; [contradiction |].
  intros [-> | Hin].
  - destruct (split_head_empty _ _ Hs) as [H | H]; tauto.
  - assert (Ht : In EmptyString (tl (split "/" k))) by now rewrite Hs.
    destruct (split_tail_empty _ Ht); tauto.
Qed.

End RenderFacts.

(** X8.  The path that the fallback page is rendered for ends with a
    slash, is the request path itself when that already does, is not
    changed by a second pass, and parses to the bucket and key of the
    request path. *)
Theorem withTrailingSlash_keeps_the_parse (reqPath : string) :
  Js.endsWith (withTrailingSlash reqPath) "/" = true
  /\ (Js.endsWith reqPath "/" = true -> withTrailingSlash reqPath = reqPath)
  /\ withTrailingSlash (withTrailingSlash reqPath) = withTrailingSlash reqPath
  /\ parseBucketAndKey (withTrailingSlash reqPath) = parseBucketAndKey reqPath.
Proof.
  unfold withTrailingSlash.
  destruct (Js.endsWith reqPath "/") eqn:He.
  - rewrite He. now repeat split.
  - rewrite JsFacts.endsWith_app.
    split; [reflexivity |]. split; [discriminate |]. split; [reflexivity |].
    apply ParserFacts.parse_same_segments,
          ParserFacts.segments_trailing_slash.
Qed.

(** X9.  The breadcrumb trail has one link per segment of the prefix after
    the link of the bucket, and the link of the i-th segment leads to the
    prefix made of the segments up to it: its target parses to the bucket
    and to these segments joined with slashes. *)
Theorem breadcrumbs_lead_to_their_prefix
    (b prefix : string) (i : nat) (part : string) :
  isSegment b ->
  segments prefix !! i = Some part ->
  (if Js.nonEmpty prefix
   then List.filter Js.nonEmpty (Js.split "/" prefix) else [])
  = segments prefix
  /\ length (breadcrumbLinks ("/" +:+ b) (segments prefix))
     = length (segments prefix)
  /\ exists href,
       breadcrumbLinks ("/" +:+ b) (segments prefix) !! i
       = Some (anchor href part)
       /\ parseBucketAndKey href
          = {| bucket := Some b;
               key := Some (Js.join "/" (take (S i) (segments prefix))) |}.
Proof.
  intros Hb Hi.
  split; [now destruct prefix |].
  assert (Hlinks : forall parts cur j p,
             parts !! j = Some p ->
             breadcrumbLinks cur parts !! j
             = Some (anchor (cur +:+ "/" +:+ Js.join "/" (take (S j) parts)) p)).
  { induction parts as [|p0 parts IH]; intros cur j p Hj; [discriminate |].
    destruct j as [|j].
    - injection Hj as ->. reflexivity.
    - cbn [breadcrumbLinks]. cbv zeta.
      change ((p0 :: parts) !! S j) with (parts !! j) in Hj.
      change ((anchor (cur +:+ "/" +:+ p0) p0
               :: breadcrumbLinks (cur +:+ "/" +:+ p0) parts) !! S j)
        with (breadcrumbLinks (cur +:+ "/" +:+ p0) parts !! j).
      rewrite (IH _ _ _ Hj). do 2 f_equal.
      destruct parts as [|p1 parts]; [discriminate |].
      change (take (S (S j)) (p0 :: p1 :: parts))
        with (p0 :: p1 :: take j parts).
      change (take (S j) (p1 :: parts)) with (p1 :: take j parts).
      rewrite RenderFacts.join_cons_cons.
      now rewrite !JsFacts.append_assoc. }
  split.
  { assert (Hlen : forall parts cur,
               length (breadcrumbLinks cur parts) = length parts).
    { induction parts as [|p l IH]; intros cur; [reflexivity |].
      cbn [breadcrumbLinks length]. now rewrite IH. }
    apply Hlen. }
  eexists. split; [apply (Hlinks _ _ _ _ Hi) |].
  rewrite JsFacts.append_assoc.
  rewrite RenderFacts.parse_link by exact Hb.
  rewrite ParserFacts.segments_join; [reflexivity |].
  apply Forall_take, ParserFacts.segments_are_segments.
Qed.

Lemma breadcrumbs_lead_to_their_prefix_witness :
  exists href,
    breadcrumbLinks "/b" (segments "dir/sub/") !! 1%nat
    = Some (anchor href "sub")
    /\ parseBucketAndKey href
       = {| bucket := Some "b"; key := Some "dir/sub" |}.
Proof.
  destruct (breadcrumbs_lead_to_their_prefix "b" "dir/sub/" 1 "sub")
    as (_ & _ & H); [now split | reflexivity | exact H].
Defined.

(** X10.  The link of a file row or of a folder row is the bucket and the
    stored key or prefix, a slash before each.  The parser reads such a
    link back as that bucket and the stored name without its empty
    segments: the link leads back to the stored name exactly when the name
    has no leading, trailing or doubled slash.  So the link of a folder,
    whose prefix ends with a slash, leads to the key without that slash. *)
Theorem row_links_resolve
    (b prefix : string) (file : S3Object) (folder : CommonPrefix) :
  isSegment b ->
  (forall r, fileRow b prefix file = Some r ->
     exists label size, r = row ("/" +:+ b +:+ "/" +:+ Key file) label size)
  /\ (exists label size,
        folderRow b prefix folder
        = row ("/" +:+ b +:+ "/" +:+ Prefix folder) label size)
  /\ (forall stored,
        parseBucketAndKey ("/" +:+ b +:+ "/" +:+ stored)
        = {| bucket := Some b;
             key := Some (Js.join "/" (segments stored)) |})
  /\ (forall stored,
        parseBucketAndKey ("/" +:+ b +:+ "/" +:+ stored)
        = {| bucket := Some b; key := Some stored |}
        <-> Js.startsWith stored "/" = false
            /\ Js.endsWith stored "/" = false
            /\ Js.includes stored "//" = false).
Proof.
  intros Hb. split; [| split; [| split]].
  - intros r Hr. unfold fileRow in Hr.
    destruct (negb _); [discriminate |]. injection Hr as <-. eauto.
  - unfold folderRow. eauto.
  - intros stored. now apply RenderFacts.parse_link.
  - intros k. rewrite RenderFacts.parse_link by exact Hb. split.
    + intros [= Hk].
      pose proof (ParserFacts.join_segments_shape _
                    (ParserFacts.segments_are_segments k)) as Hs.
      now rewrite Hk in Hs.
    + intros (Hs & He & Hi). do 2 f_equal. unfold segments.
      destruct k as [|c k']; [reflexivity |].
      rewrite RenderFacts.filter_no_empty; [apply RenderFacts.join_split |].
      intros Hin. apply RenderFacts.empty_segment_inv in Hin.
      destruct Hin as [H | [H | [H | H]]]; congruence.
Qed.

Lemma row_links_resolve_witness :
  parseBucketAndKey "/b/dir/sub/"
  = {| bucket := Some "b"; key := Some "dir/sub" |}
  /\ parseBucketAndKey "/b/a//c.png"
     = {| bucket := Some "b"; key := Some "a/c.png" |}.
Proof.
  destruct (row_links_resolve "b" "dir/" {| Key := "dir/x"; Size := 1 |}
              {| Prefix := "dir/sub/" |}) as (_ & _ & H & _); [now split |].
  split; [apply (H "dir/sub/") | apply (H "a//c.png")].
Defined.

(** X11.  The parent link of a listing is the request path without its
    last segment and the slash before it, whether or not the path ends
    with a slash; when nothing is left it is the root of the bucket. *)
Theorem parentPath_drops_the_last_segment (b front seg : string) :
  isSegment seg ->
  parentPath b (front +:+ "/" +:+ seg)
  = (if Js.nonEmpty front then front else "/" +:+ b)
  /\ parentPath b (front +:+ "/" +:+ seg +:+ "/")
     = (if Js.nonEmpty front then front else "/" +:+ b).
Proof.
  intros [Hne Hseg].
  assert (Hsplit : Js.split "/" (front +:+ "/" +:+ seg)
                   = Js.split "/" front ++ [seg]).
  { change ("/" +:+ seg) with (String "/" seg).
    now rewrite JsFacts.split_app_sep, Hseg. }
  assert (Hparent : Js.join "/" (removelast
                      (Js.split "/" (front +:+ "/" +:+ seg))) = front).
  { rewrite Hsplit, removelast_last. apply RenderFacts.join_split. }
  assert (Hend : Js.endsWith (front +:+ "/" +:+ seg) "/" = false).
  { destruct (Js.endsWith _ "/") eqn:He; [| reflexivity].
    destruct (JsFacts.endsWith_inv _ _ He) as [t Ht].
    apply (f_equal (Js.split "/")) in Ht.
    change (t +:+ "/") with (t +:+ String "/" EmptyString) in Ht.
    rewrite Hsplit, JsFacts.split_app_sep in Ht.
    apply app_inj_tail in Ht as [_ ->]. discriminate. }
  unfold parentPath. split.
  - rewrite (RenderFacts.stripTrailingSlash_id _ Hend), Hparent.
    reflexivity.
  - rewrite <- !JsFacts.append_assoc,
            RenderFacts.stripTrailingSlash_app_slash.
    rewrite JsFacts.append_assoc, Hparent. reflexivity.
Qed.

Lemma parentPath_drops_the_last_segment_witness :
  parentPath "b" "/b/dir/sub" = "/b/dir"
  /\ parentPath "b" "/b/dir/sub/" = "/b/dir".
Proof.
  apply (parentPath_drops_the_last_segment "b" "/b/dir" "sub"). now split.
Defined.

(** X12.  When every listed key begins with the prefix, as the service
    returns them, the rows of a listing are: the parent row if the prefix
    is not empty, then one row per folder, then one row per file, each in
    the order of the listing; the only files left out are those whose key
    is the prefix itself, and the name shown for a file is its key without
    the prefix. *)
Theorem listing_rows_skip_only_the_prefix_marker
    (b prefix reqPath : string) (fs : list CommonPrefix)
    (fl : list S3Object) :
  Forall (fun f => Js.startsWith (Key f) prefix = true) fl ->
  indexRows b prefix fs fl reqPath
  = (if Js.nonEmpty prefix
     then [row (parentPath b reqPath) "📁 .." "-"] else [])
    ++ map (folderRow b prefix) fs
    ++ map (shownFileRow b prefix)
         (List.filter (fun f => negb (String.eqb (Key f) prefix)) fl).
Proof.
  intros Hall. unfold indexRows. do 2 f_equal.
  induction Hall as [|f fl Hf _ IH]; [reflexivity |].
  cbn [omap list_omap List.filter]. change (omap ?g fl) with (omap g fl) in IH.
  destruct (JsFacts.startsWith_inv _ _ Hf) as [rest Hrest].
  unfold fileRow at 1. rewrite Hrest, RenderFacts.slice_app.
  destruct rest as [|c rest].
  - rewrite JsFacts.append_nil_r, String.eqb_refl. exact IH.
  - assert (Hne : String.eqb (prefix +:+ String c rest) prefix = false).
    { apply String.eqb_neq. intros H.
      apply RenderFacts.append_eq_self_inv in H. discriminate. }
    rewrite Hne. cbn [negb Js.nonEmpty map]. rewrite <- IH.
    unfold shownFileRow. rewrite Hrest, RenderFacts.slice_app. reflexivity.
Qed.

Lemma listing_rows_skip_only_the_prefix_marker_witness :
  indexRows "b" "dir/" []
    [ {| Key := "dir/"; Size := 0 |}; {| Key := "dir/x.txt"; Size := 2048 |} ]
    "/b/dir/"
  = [ row "/b" "📁 .." "-";
      shownFileRow "b" "dir/" {| Key := "dir/x.txt"; Size := 2048 |} ].
Proof.
  apply (listing_rows_skip_only_the_prefix_marker "b" "dir/" "/b/dir/" []).
  repeat constructor.
Defined.

(** X13.  A byte count below 1024 is shown exactly, as the count itself
    followed by the unit B; zero, which the formatter treats apart, is
    shown the same way. *)
Theorem formatBytes_below_1024_is_exact (bytes : Z) :
  (0 <= bytes < 1024)%Z ->
  formatBytes bytes = pretty bytes +:+ " B".
Proof.
  intros [Hnn Hlt].
  destruct (Z.eq_dec bytes 0%Z) as [-> | Hne]; [reflexivity |].
  assert (Hpos : (0 < bytes)%Z) by lia.
  rewrite (FormatFacts.formatBytes_pos bytes Hpos). cbv zeta.
  assert (Hi : floorLogRatio bytes 1024 = 0%Z).
  { unfold floorLogRatio. change (Z.log2 1024) with 10%Z.
    apply Z.div_small. split; [apply Z.log2_nonneg |].
    apply Z.log2_lt_pow2; [exact Hpos | exact Hlt]. }
  rewrite Hi. change (1024 ^ 0)%Z with 1%Z.
  assert (Hr : ((200 * bytes + 1) / (2 * 1) = 100 * bytes)%Z)
    by (symmetry; apply Z.div_unique with (r := 1%Z); lia).
  rewrite Hr. unfold toStringDiv100.
  assert (Hw : (100 * bytes / 100 = bytes)%Z)
    by (symmetry; apply Z.div_unique with (r := 0%Z); lia).
  assert (Hf : (100 * bytes mod 100 = 0)%Z)
    by (symmetry; apply Z.mod_unique with (q := bytes); lia).
  rewrite Hw, Hf. cbn [Z.eqb]. now rewrite JsFacts.append_nil_r.
Qed.

Lemma formatBytes_below_1024_is_exact_witness :
  formatBytes 1023 = "1023 B".
Proof.
  rewrite (formatBytes_below_1024_is_exact 1023); [| lia].
  vm_compute. reflexivity.
Defined.

(** X14.  For every positive byte count below 1024^4 the number that is
    shown is at least 1 and at most 1024, in hundredths from 100 to 102400,
    and it is followed by one of the four units: a count just below a power
    of 1024 is rounded up to 1024 of the smaller unit. *)
Theorem formatBytes_number_is_between_1_and_1024 (bytes : Z) :
  (0 < bytes < 1024 ^ 4)%Z ->
  exists (r : Z) (u : string),
    (100 <= r <= 102400)%Z
    /\ In u sizes
    /\ formatBytes bytes = toStringDiv100 r +:+ " " +:+ u.
Proof.
  intros [Hpos Hlt].
  destruct (FormatFacts.floorLogRatio_spec bytes Hpos) as (Hi & Hlo & Hhi).
  destruct (FormatFacts.unit_in_range bytes (conj Hpos Hlt)) as (u & Hu & Hin).
  rewrite (FormatFacts.formatBytes_pos bytes Hpos). cbv zeta. rewrite Hu.
  set (i := floorLogRatio bytes 1024) in *.
  rewrite Z.pow_add_r in Hhi by lia. change (1024 ^ 1)%Z with 1024%Z in Hhi.
  pose proof (Z.pow_pos_nonneg 1024 i ltac:(lia) Hi) as Hd.
  set (d := (1024 ^ i)%Z) in *.
  eexists. exists u. split; [| split; [exact Hin | reflexivity]]. split.
  - apply Z.div_le_lower_bound; lia.
  - apply Z.lt_succ_r, Z.div_lt_upper_bound; lia.
Qed.

Lemma formatBytes_number_is_between_1_and_1024_witness :
  exists (r : Z) (u : string),
    (100 <= r <= 102400)%Z
    /\ In u sizes
    /\ formatBytes 1048575 = toStringDiv100 r +:+ " " +:+ u.
Proof.
  apply (formatBytes_number_is_between_1_and_1024 1048575).
  split; [lia | reflexivity].
Defined.

(** X15.  Nothing that the listing page shows is escaped: the request path
    stands as it is in the title and in the heading, and every row of the
    listing, with the stored names in it, stands as it is in the page. *)
Theorem listing_page_shows_its_inputs_verbatim
    (b prefix reqPath : string) (fs : list CommonPrefix)
    (fl : list S3Object) :
  let page := generateIndexHtml b prefix fs fl reqPath in
  occursIn ("<title>Index of " +:+ reqPath +:+ "</title>") page
  /\ occursIn ("<h1>Index of " +:+ reqPath +:+ "</h1>") page
  /\ Js.includes page ("<h1>Index of " +:+ reqPath +:+ "</h1>") = true
  /\ forall r, In r (indexRows b prefix fs fl reqPath) ->
       occursIn r page /\ Js.includes page r = true.
Proof.
  intros page. subst page. unfold generateIndexHtml. cbv zeta.
  set (rows := indexRows b prefix fs fl reqPath).
  match goal with
  | |- context [Js.join nl ?l] => set (lines := l)
  end.
  assert (Hline : forall t a z,
             In (a +:+ t +:+ z) lines -> occursIn t (Js.join nl lines)).
  { intros t a z Hin.
    destruct (RenderFacts.occursIn_join nl _ _ Hin) as (x & y & ->).
    exists (x +:+ a), (z +:+ y). now rewrite !JsFacts.append_assoc. }
  assert (Htitle : occursIn ("<title>Index of " +:+ reqPath +:+ "</title>")
                     (Js.join nl lines)).
  { apply (Hline _ "  " EmptyString). rewrite JsFacts.append_nil_r.
    unfold lines. rewrite !in_app_iff. right. right. left. now left. }
  assert (Hh1 : occursIn ("<h1>Index of " +:+ reqPath +:+ "</h1>")
                  (Js.join nl lines)).
  { apply (Hline _ "  " EmptyString). rewrite JsFacts.append_nil_r.
    unfold lines. rewrite !in_app_iff. do 4 right. simpl. tauto. }
  split; [exact Htitle |]. split; [exact Hh1 |].
  split; [now apply RenderFacts.occursIn_includes |].
  intros r Hr.
  assert (Hocc : occursIn r (Js.join nl lines)).
  { destruct (RenderFacts.occursIn_join (nl +:+ "      ") _ _ Hr)
      as (x & y & Hxy).
    apply (Hline _ ("      " +:+ x) y).
    rewrite JsFacts.append_assoc, <- Hxy.
    unfold lines. rewrite !in_app_iff. do 4 right. simpl. tauto. }
  split; [exact Hocc | now apply RenderFacts.occursIn_includes].
Qed.

(** ** The handler facts on the sample stores *)

Lemma body_not_found_falls_back_witness :
  let w := serve noMime vanishingStore "/b/logo.png" in
  commands w = [HeadObjectCommand "b" "logo.png";
                GetObjectCommand "b" "logo.png";
                ListObjectsV2Command "b" "logo.png/" "/"]
  /\ res w = {| statusCode := 404;
                headers := fileHeaders noMime pngHead "logo.png";
                payload := Some (Sent "Not found") |}
  /\ fileHeaders noMime pngHead "logo.png" !! "Content-Type"
     = Some "image/png".
Proof.
  destruct (body_not_found_falls_back noMime vanishingStore "/b/logo.png"
              "b" "logo.png" pngHead noSuchKey emptyListing)
    as (Hc & _ & _ & Hnone); try reflexivity; [discriminate |].
  split; [exact Hc |]. split; [now apply Hnone | reflexivity].
Defined.

Lemma fallback_listing_failure_is_500_witness :
  let w := serve noMime missingBucketStore "/nowhere/file.txt" in
  isNotFound noSuchBucket = true
  /\ res w = {| statusCode := 500; headers := ∅;
                payload := Some (Sent "Error fetching from S3") |}
  /\ console w = [noSuchBucket].
Proof.
  split; [reflexivity |].
  destruct (fallback_listing_failure_is_500 noMime missingBucketStore
              "/nowhere/file.txt" "nowhere" "file.txt" notFound noSuchBucket)
    as (Hr & Hc & _); try reflexivity; [discriminate |].
  now split.
Defined.

Lemma same_parse_same_outline_witness :
  outline (serve noMime dirStore "/b/dir")
  = outline (serve noMime dirStore "//b//dir/").
Proof.
  apply (same_parse_same_outline noMime dirStore "/b/dir" "//b//dir/"
           "b" "dir"); reflexivity.
Defined.

Lemma bucket_row_leads_to_root_listing_witness :
  exists label created,
    bucketRow {| Name := "logs"; CreationDate := None |}
    = row "/logs" label created
    /\ commands (serve noMime emptyStore "/logs")
       = [ListObjectsV2Command "logs" EmptyString "/"].
Proof.
  apply (bucket_row_leads_to_root_listing noMime emptyStore
           {| Name := "logs"; CreationDate := None |}).
  now split.
Defined.

(** ** The buckets index and the sizes beyond the units *)

Module PageFacts.
Import Js JsFacts RenderFacts.

Lemma join_app sep l1 l2 :
  l1 <> [] -> l2 <> [] ->
  join sep (l1 ++ l2) = join sep l1 +:+ sep +:+ join sep l2.
Proof.
  intros H1 H2. induction l1 as [|x l1 IH]; [contradiction |].
  destruct l1 as [|y l1].
  - destruct l2 as [|z l2]; [contradiction | reflexivity].
  - change ((x :: y :: l1) ++ l2) with (x :: (y :: l1) ++ l2).
    change ((y :: l1) ++ l2) with (y :: l1 ++ l2) at 1.
    rewrite join_cons_cons.
    change (y :: l1 ++ l2) with ((y :: l1) ++ l2).
    rewrite IH by discriminate.
    rewrite join_cons_cons. now rewrite !append_assoc.
Qed.

(** Consecutive lines of a page occur in it, joined. *)
Lemma occursIn_join_sublist sep l1 m l2 :
  m <> [] -> occursIn (join sep m) (join sep (l1 ++ m ++ l2)).
Proof.
  intros Hm.
  assert (Hml : occursIn (join sep m) (join sep (m ++ l2))).
  { destruct l2 as [|z l2].
    - rewrite app_nil_r. apply occursIn_refl.
    - rewrite join_app by (assumption || discriminate).
      exists EmptyString, (sep +:+ join sep (z :: l2)). reflexivity. }
  destruct l1 as [|x l1]; [exact Hml |].
  rewrite join_app; [| discriminate | now destruct m].
  destruct Hml as (a & b & ->).
  exists (join sep (x :: l1) +:+ sep +:+ a), b.
  now rewrite !append_assoc.
Qed.

Lemma occursIn_trans t s u : occursIn t s -> occursIn s u -> occursIn t u.
Proof.
  intros (a & b & ->) (c & d & ->).
  exists (c +:+ a), (b +:+ d). now rewrite !append_assoc.
Qed.

Lemma occursIn_inside t a z : occursIn t (a +:+ t +:+ z).
Proof. now exists a, z. Qed.

End PageFacts.

(** The row of a bucket, written out. *)
Lemma bucketRow_text (bk : Bucket) :
  bucketRow bk
  = "<tr><td><a href=" +:+ Js.dq +:+ "/" +:+ Name bk +:+ Js.dq +:+ ">📦 "
    +:+ Name bk +:+ "</a></td><td>"
    +:+ match CreationDate bk with
        | Some iso => elementToString (Js.split "T" iso !! 0%nat)
        | None => "-"
        end
    +:+ "</td></tr>".
Proof.
  unfold bucketRow, row, anchor. cbv zeta.
  rewrite !JsFacts.append_assoc. reflexivity.
Qed.

(** What is in the buckets index whatever its rows are. *)
Lemma bucketsHtml_frame (rows : string) :
  occursIn "<title>S3 Buckets</title>" (bucketsHtml rows)
  /\ occursIn "<h1>S3 Buckets</h1>" (bucketsHtml rows)
  /\ occursIn ("<table>" +:+ nl +:+ "    <thead>" +:+ nl
               +:+ "      <tr><th>Name</th><th>Created</th></tr>" +:+ nl
               +:+ "    </thead>" +:+ nl +:+ "    <tbody>" +:+ nl
               +:+ "      " +:+ rows +:+ nl +:+ "    </tbody>" +:+ nl
               +:+ "  </table>")
       (bucketsHtml rows).
Proof.
  unfold bucketsHtml.
  match goal with |- context [Js.join nl ?l] => set (lines := l) end.
  assert (Hline : forall t a z,
             In (a +:+ t +:+ z) lines -> occursIn t (Js.join nl lines)).
  { intros t a z Hin.
    apply (PageFacts.occursIn_trans _ (a +:+ t +:+ z));
      [apply PageFacts.occursIn_inside |].
    apply RenderFacts.occursIn_join. exact Hin. }
  split; [| split].
  - apply (Hline _ "  " EmptyString). rewrite JsFacts.append_nil_r.
    unfold lines. rewrite !in_app_iff. right. right. left. now left.
  - apply (Hline _ "  " EmptyString). rewrite JsFacts.append_nil_r.
    unfold lines. rewrite !in_app_iff. do 4 right. simpl. tauto.
  - eapply PageFacts.occursIn_trans;
      [| apply (PageFacts.occursIn_join_sublist nl
                  ([ "<!DOCTYPE html>"; "<html>"; "<head>" ] ++ meta ++
                   [ "  <title>S3 Buckets</title>"; "  <style>";
                     "    body { font-family: system-ui, -apple-system, sans-serif; margin: 2rem; }";
                     "    h1 { font-size: 1.5rem; margin-bottom: 1.5rem; }" ]
                   ++ tableStyle ++
                   [ "  </style>"; "</head>"; "<body>";
                     "  <h1>S3 Buckets</h1>" ])
                  [ "  <table>"; "    <thead>";
                    "      <tr><th>Name</th><th>Created</th></tr>";
                    "    </thead>"; "    <tbody>"; "      " +:+ rows;
                    "    </tbody>"; "  </table>" ]
                  [ "</body>"; "</html>" ]); discriminate].
    exists "  ", EmptyString. cbn. now rewrite !JsFacts.append_assoc.
Qed.

(** C6.  A GET of the root path sends the one command that lists the
    buckets.  When it succeeds the answer is 200 with the buckets index:
    an HTML page with the title and the heading S3 Buckets and one table,
    headed Name and Created, whose body is the rows of the buckets, one row
    per bucket with its link, its name and its creation date.  With no
    bucket the answer is still 200 and the body of the table is empty: no
    row is in the page.  When the command fails the answer is 500 with the
    body Error listing buckets, and the error is logged. *)
Theorem root_lists_buckets
    (mime_lookup : string -> option string) (s3 : Backend) :
  let w := serve mime_lookup s3 "/" in
  commands w = [ListBucketsCommand]
  /\ (forall out, listBuckets s3 = Resolved out ->
        let buckets := default [] (Buckets out) in
        let rows := Js.join (nl +:+ "      ") (map bucketRow buckets) in
        let page := bucketsHtml rows in
        res w = {| statusCode := 200;
                   headers := <["Content-Type" := htmlType]> ∅;
                   payload := Some (Sent page) |}
        /\ console w = []
        /\ occursIn "<title>S3 Buckets</title>" page
        /\ occursIn "<h1>S3 Buckets</h1>" page
        /\ occursIn ("<table>" +:+ nl +:+ "    <thead>" +:+ nl
                     +:+ "      <tr><th>Name</th><th>Created</th></tr>"
                     +:+ nl +:+ "    </thead>" +:+ nl +:+ "    <tbody>"
                     +:+ nl +:+ "      " +:+ rows +:+ nl
                     +:+ "    </tbody>" +:+ nl +:+ "  </table>") page
        /\ (forall bk, In bk buckets ->
              occursIn
                ("<tr><td><a href=" +:+ Js.dq +:+ "/" +:+ Name bk +:+ Js.dq
                 +:+ ">📦 " +:+ Name bk +:+ "</a></td><td>"
                 +:+ match CreationDate bk with
                     | Some iso => elementToString (Js.split "T" iso !! 0%nat)
                     | None => "-"
                     end
                 +:+ "</td></tr>") rows)
        /\ (buckets = [] ->
            rows = EmptyString
            /\ occursIn ("<table>" +:+ nl +:+ "    <thead>" +:+ nl
                         +:+ "      <tr><th>Name</th><th>Created</th></tr>"
                         +:+ nl +:+ "    </thead>" +:+ nl +:+ "    <tbody>"
                         +:+ nl +:+ "      " +:+ nl
                         +:+ "    </tbody>" +:+ nl +:+ "  </table>") page
            /\ Js.includes page "<tr><td>" = false))
  /\ (forall err, listBuckets s3 = Rejected err ->
        res w = {| statusCode := 500; headers := ∅;
                   payload := Some (Sent "Error listing buckets") |}
        /\ console w = [err]).
Proof.
  intros w. subst w.
  unfold serve. change (String.eqb "/" "/") with true. cbv iota.
  unfold getRoot, tryCatch, mbind, M_bind, send.
  destruct (listBuckets s3) as [out | err]; rewrite ?internalError_run.
  - split; [reflexivity |]. split.
    + intros out' Hout. injection Hout as <-.
      set (buckets := default [] (Buckets out)).
      set (rows := Js.join (nl +:+ "      ") (map bucketRow buckets)).
      destruct (bucketsHtml_frame rows) as (Ht & Hh & Htab).
      split; [reflexivity |]. split; [reflexivity |].
      split; [exact Ht |]. split; [exact Hh |]. split; [exact Htab |].
      split.
      * intros bk Hin. rewrite <- bucketRow_text.
        apply RenderFacts.occursIn_join. now apply in_map.
      * intros Hnone.
        assert (Hrows : rows = EmptyString)
          by (unfold rows; now rewrite Hnone).
        split; [exact Hrows |]. rewrite Hrows in *.
        split; [exact Htab |]. vm_compute. reflexivity.
    + intros err' [=].
  - split; [reflexivity |]. split.
    + intros out' [=].
    + intros err' [= <-]. split; reflexivity.
Qed.

Lemma root_lists_buckets_witness :
  let w := serve noMime dirStore "/" in
  statusCode (res w) = 200%Z
  /\ payload (res w)
     = Some (Sent (bucketsHtml
                     ("<tr><td><a href=" +:+ Js.dq +:+ "/b" +:+ Js.dq
                      +:+ ">📦 b</a></td><td>-</td></tr>")))
  /\ occursIn "<h1>S3 Buckets</h1>"
       (bucketsHtml
          ("<tr><td><a href=" +:+ Js.dq +:+ "/b" +:+ Js.dq
           +:+ ">📦 b</a></td><td>-</td></tr>")).
Proof.
  destruct (root_lists_buckets noMime dirStore) as (_ & Hok & _).
  destruct (Hok {| Buckets := Some [ {| Name := "b"; CreationDate := None |} ] |}
              eq_refl) as (Hres & _ & _ & Hh & _).
  split; [now rewrite Hres |]. split; [now rewrite Hres | exact Hh].
Defined.




Section ComputedIndex.

(** The index that line 110 computes in floating point, with three
    properties of the binary64 logarithm: the index does not decrease when
    the byte count grows, it is the exact base-1024 magnitude below 1024^4,
    and it is 4 at 1024^4, where the ratio of the two logarithms is
    exactly 4. *)
Variable logIndex : Z -> Z.
Hypothesis logIndex_mono :
  forall a b : Z, (0 < a)%Z -> (a <= b)%Z -> (logIndex a <= logIndex b)%Z.
Hypothesis logIndex_exact :
  forall b : Z, (0 < b < 1024 ^ 4)%Z -> logIndex b = floorLogRatio b 1024.
Hypothesis logIndex_tebibyte : logIndex (1024 ^ 4) = 4%Z.



End ComputedIndex.

